(** * Claket soundboard: the observer side of the playback engine

    A shallow embedding of the Pinia store [stores/audio.ts] and of the seek
    handlers of [App.vue], followed by the properties of the progress and
    seek-reconciliation protocol that the specification states about them.

    Conventions of the embedding.
    - Millisecond quantities and identifiers are JavaScript numbers that only
      ever hold integers here ([Date.now()], the engine's positions, a slider
      with [:step="1"]), so they are [Z]; [Math.round] is the identity on them.
      Gains and levels are fractions, kept as [Q] and never computed with.
    - [activeProgresses], [seekRecovery] and [wasPlayingBeforeSeek] are
      JavaScript [Map]s keyed by instance id: [gmap Z _].  None of the
      operations embedded below depends on the insertion order of a [Map].
    - An object reached through a map or through [buttons] is mutated in
      place by the source; no two entries ever share an object (every entry
      is created by a fresh object literal), so the mutation is the update of
      that entry.
    - [async] functions are resumptions: a task either returns, aborts with
      an uncaught rejection, or is suspended at an [await] of an external
      command, exposing the world as it is at that moment. A task is embedded
      as it runs when no other handler is scheduled during its awaits.
    - [toast] and [console] calls have no effect on the modelled state and
      are left out. *)

From stdpp Require Import gmap strings list fin_maps pretty.
From Stdlib Require Import ZArith QArith.

Open Scope Z_scope.

(** ** Data model (stores/audio.ts) *)

Module SoundButton.
Record t : Type := mk {
  id : Z;
  path : option string;          (* string | null *)
  name : string;
  volume : Q;
  color : string;
  isPaused : bool;
  activeInstances : Z
}.

Definition set_isPaused (v : bool) (b : t) : t :=
  mk (id b) (path b) (name b) (volume b) (color b) v (activeInstances b).

Definition set_activeInstances (v : Z) (b : t) : t :=
  mk (id b) (path b) (name b) (volume b) (color b) (isPaused b) v.
End SoundButton.

Module AudioProgress.
Record t : Type := mk {
  id : string;                   (* the owning button's id, as a string *)
  instance_id : Z;
  name : string;
  position_ms : Z;
  duration_ms : Z;
  is_paused : bool;
  last_sync_time : Z;
  last_sync_pos : Z
}.

Definition set_position_ms (v : Z) (p : t) : t :=
  mk (id p) (instance_id p) (name p) v (duration_ms p) (is_paused p)
     (last_sync_time p) (last_sync_pos p).

Definition set_is_paused (v : bool) (p : t) : t :=
  mk (id p) (instance_id p) (name p) (position_ms p) (duration_ms p) v
     (last_sync_time p) (last_sync_pos p).
End AudioProgress.

Record Levels : Type := mkLevels { peak : Q; rms : Q }.

Inductive TitlebarStyle : Type := windows | mac.
Inductive ControlsSide : Type := left | right.

(** The state of the store. The fields that none of the embedded actions
    reads or writes ([devices], [isLoaded], [isQueueExpanded], [currentPage],
    [itemsPerPage], [dragPosition], [lastUpdateTimestamp],
    [isVUMeterExpanded]) are not carried. *)
Record Store : Type := mkStore {
  buttons : list SoundButton.t;
  masterVolume : Q;
  currentDevice : string;
  activeProgresses : gmap Z AudioProgress.t;
  seekingInstanceId : option Z;    (* number | null *)
  seekRecovery : gmap Z Z;
  totalPages : Z;
  pageNames : list string;
  reducedMotion : bool;
  accentColor : string;
  masterLevels : Levels;
  titlebarStyle : TitlebarStyle;
  controlsSide : ControlsSide
}.

Definition set_buttons (v : list SoundButton.t) (s : Store) : Store :=
  mkStore v (masterVolume s) (currentDevice s) (activeProgresses s)
    (seekingInstanceId s) (seekRecovery s) (totalPages s) (pageNames s)
    (reducedMotion s) (accentColor s) (masterLevels s) (titlebarStyle s)
    (controlsSide s).

Definition set_masterVolume (v : Q) (s : Store) : Store :=
  mkStore (buttons s) v (currentDevice s) (activeProgresses s)
    (seekingInstanceId s) (seekRecovery s) (totalPages s) (pageNames s)
    (reducedMotion s) (accentColor s) (masterLevels s) (titlebarStyle s)
    (controlsSide s).

Definition set_currentDevice (v : string) (s : Store) : Store :=
  mkStore (buttons s) (masterVolume s) v (activeProgresses s)
    (seekingInstanceId s) (seekRecovery s) (totalPages s) (pageNames s)
    (reducedMotion s) (accentColor s) (masterLevels s) (titlebarStyle s)
    (controlsSide s).

Definition set_activeProgresses (v : gmap Z AudioProgress.t) (s : Store) : Store :=
  mkStore (buttons s) (masterVolume s) (currentDevice s) v
    (seekingInstanceId s) (seekRecovery s) (totalPages s) (pageNames s)
    (reducedMotion s) (accentColor s) (masterLevels s) (titlebarStyle s)
    (controlsSide s).

Definition set_seekingInstanceId (v : option Z) (s : Store) : Store :=
  mkStore (buttons s) (masterVolume s) (currentDevice s) (activeProgresses s)
    v (seekRecovery s) (totalPages s) (pageNames s)
    (reducedMotion s) (accentColor s) (masterLevels s) (titlebarStyle s)
    (controlsSide s).

Definition set_seekRecovery (v : gmap Z Z) (s : Store) : Store :=
  mkStore (buttons s) (masterVolume s) (currentDevice s) (activeProgresses s)
    (seekingInstanceId s) v (totalPages s) (pageNames s)
    (reducedMotion s) (accentColor s) (masterLevels s) (titlebarStyle s)
    (controlsSide s).

Definition set_masterLevels (v : Levels) (s : Store) : Store :=
  mkStore (buttons s) (masterVolume s) (currentDevice s) (activeProgresses s)
    (seekingInstanceId s) (seekRecovery s) (totalPages s) (pageNames s)
    (reducedMotion s) (accentColor s) v (titlebarStyle s)
    (controlsSide s).

(** ** Array helpers *)

(** [Array.prototype.find]: the first element that satisfies the predicate. *)
Definition find {A : Type} (f : A -> bool) (l : list A) : option A :=
  List.find f l.

(** The write [x.field = v] through the reference returned by [find]: the
    first element that satisfies the predicate is the one updated. *)
Fixpoint update_found {A : Type} (f : A -> bool) (g : A -> A) (l : list A) : list A :=
  match l with
  | [] => []
  | x :: l' => if f x then g x :: l' else x :: update_found f g l'
  end.

(** [b.id.toString() === key] *)
Definition id_is (key : string) (b : SoundButton.t) : bool :=
  bool_decide (pretty (SoundButton.id b) = key).

(** [b.id === buttonId] *)
Definition id_eq (buttonId : Z) (b : SoundButton.t) : bool :=
  bool_decide (SoundButton.id b = buttonId).

(** ** Synchronous handlers of the store *)

(** The body of [loop] in [startAnimationLoop], for one animation frame at
    wall-clock time [now]: what the callback of [forEach] does to one entry. *)
Definition loop_entry (seeking : option Z) (now : Z) (instanceId : Z)
    (progress : AudioProgress.t) : AudioProgress.t :=
  if bool_decide (seeking = Some instanceId) then progress
  else if negb (AudioProgress.is_paused progress) then
    let elapsedSinceSync := now - AudioProgress.last_sync_time progress in
    let projected := AudioProgress.last_sync_pos progress + elapsedSinceSync in
    AudioProgress.set_position_ms
      (Z.min (AudioProgress.duration_ms progress) projected) progress
  else progress.

Definition loop (now : Z) (s : Store) : Store :=
  set_activeProgresses
    (map_imap (fun instanceId progress =>
                 Some (loop_entry (seekingInstanceId s) now instanceId progress))
              (activeProgresses s)) s.

(** [listen("master-level", ...)] *)
Definition listen_master_level (payload : Levels) (s : Store) : Store :=
  set_masterLevels payload s.

(** [Array.from(this.activeProgresses.values()).every(p => p.is_paused)] *)
Definition every_is_paused (m : gmap Z AudioProgress.t) : bool :=
  forallb AudioProgress.is_paused (snd <$> map_to_list m).

(** [listen("audio-progress", ...)], first part: the two guards. [None] is
    the early [return] (the snapshot is dropped); [Some s'] is the store with
    which the handler goes on to apply the snapshot. *)
Definition progress_gate (payload : AudioProgress.t) (s : Store) : option Store :=
  let instance_id := AudioProgress.instance_id payload in
  if bool_decide (seekingInstanceId s = Some instance_id) then None
  else
    match seekRecovery s !! instance_id with
    | Some recoveryTarget =>
        if AudioProgress.position_ms payload >=? recoveryTarget - 100
        then Some (set_seekRecovery (delete instance_id (seekRecovery s)) s)
        else None
    | None => Some s
    end.

(** [listen("audio-progress", ...)], second part: the snapshot is applied. *)
Definition progress_apply (now : Z) (payload : AudioProgress.t) (s : Store) : Store :=
  let instance_id := AudioProgress.instance_id payload in
  let s1 :=
    match activeProgresses s !! instance_id with
    | Some existing =>
        let existing1 :=
          AudioProgress.mk (AudioProgress.id existing)
            (AudioProgress.instance_id existing) (AudioProgress.name existing)
            (AudioProgress.position_ms existing)
            (AudioProgress.duration_ms payload)
            (AudioProgress.is_paused payload)
            now
            (AudioProgress.position_ms payload) in
        if AudioProgress.is_paused payload then
          let existing2 :=
            AudioProgress.set_position_ms (AudioProgress.position_ms payload) existing1 in
          let s' := set_activeProgresses (<[instance_id := existing2]> (activeProgresses s)) s in
          if every_is_paused (activeProgresses s')
          then set_masterLevels (mkLevels 0 0) s'
          else s'
        else
          set_activeProgresses (<[instance_id := existing1]> (activeProgresses s)) s
    | None =>
        set_activeProgresses
          (<[instance_id :=
               AudioProgress.mk (AudioProgress.id payload)
                 (AudioProgress.instance_id payload) (AudioProgress.name payload)
                 (AudioProgress.position_ms payload)
                 (AudioProgress.duration_ms payload)
                 (AudioProgress.is_paused payload)
                 now
                 (AudioProgress.position_ms payload)]> (activeProgresses s)) s
    end in
  set_buttons
    (update_found (id_is (AudioProgress.id payload))
       (SoundButton.set_isPaused (AudioProgress.is_paused payload))
       (buttons s1)) s1.

Definition listen_audio_progress (now : Z) (payload : AudioProgress.t) (s : Store) : Store :=
  match progress_gate payload s with
  | None => s
  | Some s' => progress_apply now payload s'
  end.

(** The bookkeeping shared, statement for statement, by the handler of
    ["audio-finished"] and by [stopInstance] once the engine has answered. *)
Definition decrement_if_positive (b : SoundButton.t) : SoundButton.t :=
  if 0 <? SoundButton.activeInstances b
  then SoundButton.set_activeInstances (SoundButton.activeInstances b - 1) b
  else b.

(** [listen("audio-finished", ...)] *)
Definition listen_audio_finished (instanceId : Z) (s : Store) : Store :=
  match activeProgresses s !! instanceId with
  | Some progress =>
      let s1 :=
        set_buttons
          (update_found (id_is (AudioProgress.id progress)) decrement_if_positive
             (buttons s)) s in
      set_activeProgresses (delete instanceId (activeProgresses s1)) s1
  | None => s
  end.

(** ** The world outside the store *)

(** A button as [saveSettings] writes it. *)
Record SavedButton : Type := mkSavedButton {
  saved_id : Z;
  saved_path : option string;
  saved_name : string;
  saved_volume : Q;
  saved_color : string
}.

(** A value handed to [store.set]. *)
Inductive Saved : Type :=
| SavedButtons (l : list SavedButton)
| SavedNumber (q : Q)
| SavedInteger (n : Z)
| SavedString (s : string)
| SavedStrings (l : list string)
| SavedBool (b : bool).

(** The external commands a handler awaits: the engine's Tauri commands
    ([invoke]) and the calls into the settings plugin ([Store]). *)
Inductive Command : Type :=
| set_audio_device (deviceName : string)
| update_master_volume (volume : Q)
| play_sound (id : string) (path : string) (name : string) (volume : Q)
| toggle_pause_instance (instanceId : Z)
| stop_instance (instanceId : Z)
| stop_all
| seek_instance (instanceId : Z) (positionMs : Z)
| Store_load (file : string)
| store_set (key : string) (value : Saved)
| store_save.

Inductive Value : Type :=
| VUndefined
| VBool (b : bool).

(** How an awaited promise settles. *)
Inductive Response : Type :=
| Resolved (v : Value)
| Rejected.

(** The value of an [invoke<boolean>]. *)
Definition as_boolean (v : Value) : bool :=
  match v with
  | VBool b => b
  | VUndefined => false
  end.

(** The store, the refs of [App.vue] and the entries the settings plugin
    holds for [store.bin]. *)
Record World : Type := mkWorld {
  store : Store;
  localSeekValue : option Z;             (* ref<number | null> *)
  wasPlayingBeforeSeek : gmap Z bool;
  settings : gmap string Saved
}.

Definition set_store (v : Store) (w : World) : World :=
  mkWorld v (localSeekValue w) (wasPlayingBeforeSeek w) (settings w).

Definition set_localSeekValue (v : option Z) (w : World) : World :=
  mkWorld (store w) v (wasPlayingBeforeSeek w) (settings w).

Definition set_wasPlayingBeforeSeek (v : gmap Z bool) (w : World) : World :=
  mkWorld (store w) (localSeekValue w) v (settings w).

Definition set_settings (v : gmap string Saved) (w : World) : World :=
  mkWorld (store w) (localSeekValue w) (wasPlayingBeforeSeek w) v.

(** ** Asynchronous tasks *)

Inductive Task (A : Type) : Type :=
| Return (a : A) (w : World)
| Raise (w : World)
| Await (c : Command) (w : World) (k : Response -> Task A).

Arguments Return {A} a w.
Arguments Raise {A} w.
Arguments Await {A} c w k.

Fixpoint task_bind {A B : Type} (t : Task A) (f : A -> World -> Task B) : Task B :=
  match t with
  | Return a w => f a w
  | Raise w => Raise w
  | Await c w k => Await c w (fun r => task_bind (k r) f)
  end.

(** [try { t } catch (e) { h }] *)
Fixpoint task_catch {A : Type} (t : Task A) (h : World -> Task A) : Task A :=
  match t with
  | Return a w => Return a w
  | Raise w => h w
  | Await c w k => Await c w (fun r => task_catch (k r) h)
  end.

Definition Action (A : Type) : Type := World -> Task A.

Definition ret {A : Type} (a : A) : Action A := fun w => Return a w.

Definition bind {A B : Type} (m : Action A) (f : A -> Action B) : Action B :=
  fun w => task_bind (m w) f.

Definition try_catch {A : Type} (m : Action A) (h : Action A) : Action A :=
  fun w => task_catch (m w) h.

(** [await c]: suspended on the command; a rejection is thrown. *)
Definition await (c : Command) : Action Value :=
  fun w => Await c w (fun r =>
    match r with
    | Resolved v => Return v w
    | Rejected => Raise w
    end).

Definition get_store : Action Store := fun w => Return (store w) w.
Definition modify_store (f : Store -> Store) : Action unit :=
  fun w => Return tt (set_store (f (store w)) w).
Definition get_world : Action World := fun w => Return w w.
Definition modify_world (f : World -> World) : Action unit :=
  fun w => Return tt (f w).

Declare Scope action_scope.
Delimit Scope action_scope with action.
Notation "x <- m ;; k" := (bind m (fun x => k))
  (at level 100, m at next level, right associativity) : action_scope.
Notation "m ;;; k" := (bind m (fun _ => k))
  (at level 100, right associativity) : action_scope.
Open Scope action_scope.

(** How a task ends. *)
Inductive Outcome (A : Type) : Type :=
| Completed (a : A) (w : World)
| Aborted (w : World).

Arguments Completed {A} a w.
Arguments Aborted {A} w.

(** A task run to its end against an environment that settles each awaited
    command. *)
Fixpoint run {A : Type} (env : Command -> Response) (t : Task A) : Outcome A :=
  match t with
  | Return a w => Completed a w
  | Raise w => Aborted w
  | Await c _ k => run env (k (env c))
  end.

(** The world a task leaves behind. *)
Definition final {A : Type} (o : Outcome A) : World :=
  match o with
  | Completed _ w => w
  | Aborted w => w
  end.

(** The commands a task issues, in order. *)
Fixpoint issued {A : Type} (env : Command -> Response) (t : Task A) : list Command :=
  match t with
  | Return _ _ => []
  | Raise _ => []
  | Await c _ k => c :: issued env (k (env c))
  end.

(** ** Asynchronous actions of the store (stores/audio.ts) *)

Definition buttonsToSave (s : Store) : list SavedButton :=
  List.map (fun b => mkSavedButton (SoundButton.id b) (SoundButton.path b)
                       (SoundButton.name b) (SoundButton.volume b)
                       (SoundButton.color b))
           (buttons s).

Definition titlebarStyle_string (t : TitlebarStyle) : string :=
  match t with windows => "windows" | mac => "mac" end.

Definition controlsSide_string (c : ControlsSide) : string :=
  match c with left => "left" | right => "right" end.

(** [await store.set(key, value)]: once the plugin has answered, its entry
    for [key] holds [value]. *)
Definition store_set_entry (key : string) (value : Saved) : Action unit :=
  await (store_set key value) ;;;
  modify_world (fun w => set_settings (<[key := value]> (settings w)) w).

Definition saveSettings : Action unit :=
  try_catch
    (await (Store_load "store.bin") ;;;
     s <- get_store ;; store_set_entry "buttons" (SavedButtons (buttonsToSave s)) ;;;
     s <- get_store ;; store_set_entry "masterVolume" (SavedNumber (masterVolume s)) ;;;
     s <- get_store ;; store_set_entry "currentDevice" (SavedString (currentDevice s)) ;;;
     s <- get_store ;; store_set_entry "totalPages" (SavedInteger (totalPages s)) ;;;
     s <- get_store ;; store_set_entry "pageNames" (SavedStrings (pageNames s)) ;;;
     s <- get_store ;; store_set_entry "reducedMotion" (SavedBool (reducedMotion s)) ;;;
     s <- get_store ;; store_set_entry "accentColor" (SavedString (accentColor s)) ;;;
     s <- get_store ;;
     store_set_entry "titlebarStyle" (SavedString (titlebarStyle_string (titlebarStyle s))) ;;;
     s <- get_store ;;
     store_set_entry "controlsSide" (SavedString (controlsSide_string (controlsSide s))) ;;;
     await store_save ;;;
     ret tt)
    (ret tt).

Definition setOutputDevice (deviceName : string) : Action unit :=
  try_catch
    (await (set_audio_device deviceName) ;;;
     modify_store (set_currentDevice deviceName) ;;;
     saveSettings)
    (ret tt).

Definition setMasterVolume (volume : Q) : Action unit :=
  modify_store (set_masterVolume volume) ;;;
  try_catch
    (await (update_master_volume volume) ;;;
     saveSettings)
    (ret tt).

(** [!button.path]: [null] and the empty string are both falsy. *)
Definition path_missing (b : SoundButton.t) : bool :=
  match SoundButton.path b with
  | None => true
  | Some p => bool_decide (p = EmptyString)
  end.

Definition playSound (buttonId : Z) : Action unit :=
  s <- get_store ;;
  match find (id_eq buttonId) (buttons s) with
  | None => ret tt
  | Some button =>
      if path_missing button then ret tt
      else
        try_catch
          (modify_store (fun s =>
             set_buttons
               (update_found (id_eq buttonId)
                  (fun b => SoundButton.set_isPaused false
                              (SoundButton.set_activeInstances
                                 (SoundButton.activeInstances b + 1) b))
                  (buttons s)) s) ;;;
           await (play_sound (pretty buttonId)
                    (default EmptyString (SoundButton.path button))
                    (SoundButton.name button) (SoundButton.volume button)) ;;;
           ret tt)
          (modify_store (fun s =>
             set_buttons
               (update_found (id_eq buttonId)
                  (fun b => SoundButton.set_activeInstances
                              (SoundButton.activeInstances b - 1) b)
                  (buttons s)) s))
  end.

Definition togglePauseInstance (instanceId : Z) : Action unit :=
  try_catch
    (isPaused <- await (toggle_pause_instance instanceId) ;;
     modify_store (fun s =>
       match activeProgresses s !! instanceId with
       | Some progress =>
           set_activeProgresses
             (<[instanceId := AudioProgress.set_is_paused (as_boolean isPaused) progress]>
                (activeProgresses s)) s
       | None => s
       end))
    (ret tt).

Definition stopInstance (instanceId : Z) : Action unit :=
  try_catch
    (await (stop_instance instanceId) ;;;
     modify_store (fun s =>
       match activeProgresses s !! instanceId with
       | Some progress =>
           let s1 :=
             set_buttons
               (update_found (id_is (AudioProgress.id progress))
                  decrement_if_positive (buttons s)) s in
           set_activeProgresses (delete instanceId (activeProgresses s1)) s1
       | None => s
       end))
    (ret tt).

Definition stopAll : Action unit :=
  try_catch
    (await stop_all ;;;
     modify_store (fun s =>
       set_activeProgresses ∅
         (set_buttons
            (List.map (fun b => SoundButton.set_isPaused false
                                  (SoundButton.set_activeInstances 0 b))
                      (buttons s)) s)))
    (ret tt).

(** ** The seek handlers and the slider (App.vue) *)

(** [Math.round] on a number that holds an integer. *)
Definition Math_round (x : Z) : Z := x.

Definition handleSeek (instanceId : Z) (v : list Z) (w : World) : World :=
  match v with
  | v0 :: _ =>
      if bool_decide (seekingInstanceId (store w) = Some instanceId)
      then set_localSeekValue (Some v0) w
      else w
  | [] => w
  end.

Definition handleSeekStart (instanceId : Z) : Action unit :=
  s <- get_store ;;
  match activeProgresses s !! instanceId with
  | Some item =>
      modify_store (set_seekingInstanceId (Some instanceId)) ;;;
      modify_world (set_localSeekValue (Some (AudioProgress.position_ms item))) ;;;
      let wasPlaying := negb (AudioProgress.is_paused item) in
      modify_world (fun w =>
        set_wasPlayingBeforeSeek (<[instanceId := wasPlaying]> (wasPlayingBeforeSeek w)) w) ;;;
      if wasPlaying then togglePauseInstance instanceId else ret tt
  | None => ret tt
  end.

Definition handleSeekEnd (instanceId : Z) : Action unit :=
  w0 <- get_world ;;
  let item := activeProgresses (store w0) !! instanceId in
  let wasPlaying := default false (wasPlayingBeforeSeek w0 !! instanceId) in
  match item, localSeekValue w0 with
  | Some _, Some finalPos =>
      modify_store (fun s =>
        set_seekRecovery (<[instanceId := finalPos]> (seekRecovery s)) s) ;;;
      await (seek_instance instanceId (Math_round finalPos)) ;;;
      modify_store (fun s =>
        set_activeProgresses
          (alter (AudioProgress.set_position_ms finalPos) instanceId
                 (activeProgresses s)) s)
  | _, _ => ret tt
  end ;;;
  s <- get_store ;;
  (if wasPlaying && bool_decide (is_Some item)
      && from_option AudioProgress.is_paused false (activeProgresses s !! instanceId)
   then togglePauseInstance instanceId
   else ret tt) ;;;
  modify_world (fun w =>
    set_wasPlayingBeforeSeek (delete instanceId (wasPlayingBeforeSeek w)) w) ;;;
  modify_store (set_seekingInstanceId None) ;;;
  modify_world (set_localSeekValue None).

(** The [:model-value] of a progress slider: the position it displays. *)
Definition model_value (w : World) (item : AudioProgress.t) : Z :=
  match localSeekValue w with
  | Some v =>
      if bool_decide (seekingInstanceId (store w) = Some (AudioProgress.instance_id item))
      then v
      else AudioProgress.position_ms item
  | None => AudioProgress.position_ms item
  end.

(** ** What the observer sees over time *)

(** The two things that touch a progress entry between user gestures. *)
Inductive Event : Type :=
| Snapshot (now : Z) (payload : AudioProgress.t)   (* an "audio-progress" event *)
| Frame (now : Z).                                 (* one animation frame *)

Definition observe (e : Event) (s : Store) : Store :=
  match e with
  | Snapshot now payload => listen_audio_progress now payload s
  | Frame now => loop now s
  end.

Definition observe_all (events : list Event) (s : Store) : Store :=
  foldl (fun s e => observe e s) s events.

(** The snapshots that get past the guards of the handler, in the order of
    their arrival. *)
Fixpoint accepted (events : list Event) (s : Store) : list AudioProgress.t :=
  match events with
  | [] => []
  | e :: events' =>
      match e with
      | Snapshot _ payload =>
          if bool_decide (is_Some (progress_gate payload s))
          then payload :: accepted events' (observe e s)
          else accepted events' (observe e s)
      | Frame _ => accepted events' (observe e s)
      end
  end.

(** The accepted snapshots of one instance. *)
Definition accepted_for (instanceId : Z) (events : list Event) (s : Store)
    : list AudioProgress.t :=
  List.filter (fun p => bool_decide (AudioProgress.instance_id p = instanceId))
              (accepted events s).

(** ** Predicates on tasks *)

(** [ends_in P t]: however the awaited commands settle, the task [t] leaves a
    world that satisfies [P]. *)
Fixpoint ends_in {A : Type} (P : World -> Prop) (t : Task A) : Prop :=
  match t with
  | Return _ w => P w
  | Raise w => P w
  | Await _ _ k => forall r, ends_in P (k r)
  end.

(** [throughout P t]: [P] holds of every world that [t] exposes, at each of
    its awaits and when it ends. *)
Fixpoint throughout {A : Type} (P : World -> Prop) (t : Task A) : Prop :=
  match t with
  | Return _ w => P w
  | Raise w => P w
  | Await _ w k => P w /\ forall r, throughout P (k r)
  end.

(** A seek drag is in progress on [instanceId], the slider standing at [v]. *)
Definition dragging (instanceId v : Z) (w : World) : Prop :=
  seekingInstanceId (store w) = Some instanceId /\ localSeekValue w = Some v.

(** The position the slider of an instance displays, if the instance is in
    the table. *)
Definition displayed (instanceId : Z) (w : World) : option Z :=
  model_value w <$> activeProgresses (store w) !! instanceId.

(** The world after the observer has processed [events]. *)
Definition after (events : list Event) (w : World) : World :=
  set_store (observe_all events (store w)) w.

(** Whenever the drag flag of the store is set, the slider value of
    [App.vue] is set too. *)
Definition drag_has_value (w : World) : Prop :=
  is_Some (seekingInstanceId (store w)) -> is_Some (localSeekValue w).

(** ** Concrete worlds for the examples *)

Definition button3 (activeInstances : Z) : SoundButton.t :=
  SoundButton.mk 3 (Some "boom.wav") "Boom" (4 # 5) "bg-secondary" false activeInstances.

Definition button4 : SoundButton.t :=
  SoundButton.mk 4 None "Button 5" (1 # 2) "bg-secondary" false 0.

(** Instance 1 of button 3 on an 8000 ms clip. *)
Definition boom (position_ms : Z) (is_paused : bool) (sync_time : Z) : AudioProgress.t :=
  AudioProgress.mk "3" 1 "Boom" position_ms 8000 is_paused sync_time position_ms.

Definition store0 : Store :=
  mkStore [button3 1; button4] 1 "Default" {[ 1 := boom 1000 false 10000 ]}
    None ∅ 4 ["Page 1"; "Page 2"; "Page 3"; "Page 4"] false "Default"
    (mkLevels 0 0) windows right.

Definition world0 : World := mkWorld store0 None ∅ ∅.

(** Every command succeeds; [toggle_pause_instance] answers [paused]. *)
Definition engine_ok (paused : bool) (c : Command) : Response :=
  match c with
  | toggle_pause_instance _ => Resolved (VBool paused)
  | _ => Resolved VUndefined
  end.

(** Every command fails. *)
Definition engine_down (c : Command) : Response := Rejected.

(** A drag on instance 1 of [world0]: the pointer goes down (the engine
    pauses the instance), the slider is moved to 5000, and the pointer goes
    up. [world_mid_seek] is the world [handleSeekEnd] exposes while it awaits
    the engine's answer to [seek_instance]. *)
Definition world_dragging : World :=
  handleSeek 1 [5000] (final (run (engine_ok true) (handleSeekStart 1 world0))).

Definition world_mid_seek : World :=
  match handleSeekEnd 1 world_dragging with
  | Await _ w _ => w
  | _ => world_dragging
  end.

(** The drag over, the engine having resumed the instance. *)
Definition world_after_seek : World :=
  final (run (engine_ok false) (handleSeekEnd 1 world_dragging)).

(** Button 3 has been reset from its context menu ([reset] in
    [GlowButton.vue] sets [activeInstances] to 0 and stops nothing) while its
    instance 1 is still playing. *)
Definition world_reset : World :=
  set_store (set_buttons [button3 0; button4] store0) world0.

(** ** Everything that can happen to the world *)

(** The events the engine emits, the animation frames, and the calls the
    components make into the store and into the seek handlers. *)
Inductive Input : Type :=
| on_master_level (payload : Levels)
| on_audio_progress (now : Z) (payload : AudioProgress.t)
| on_audio_finished (instanceId : Z)
| on_frame (now : Z)
| call_setOutputDevice (deviceName : string)
| call_setMasterVolume (volume : Q)
| call_playSound (buttonId : Z)
| call_togglePauseInstance (instanceId : Z)
| call_stopInstance (instanceId : Z)
| call_stopAll
| call_saveSettings
| call_handleSeekStart (instanceId : Z)
| call_handleSeek (instanceId : Z) (v : list Z)
| call_handleSeekEnd (instanceId : Z).

Definition react (i : Input) : Action unit :=
  match i with
  | on_master_level payload => modify_store (listen_master_level payload)
  | on_audio_progress now payload => modify_store (listen_audio_progress now payload)
  | on_audio_finished instanceId => modify_store (listen_audio_finished instanceId)
  | on_frame now => modify_store (loop now)
  | call_setOutputDevice deviceName => setOutputDevice deviceName
  | call_setMasterVolume volume => setMasterVolume volume
  | call_playSound buttonId => playSound buttonId
  | call_togglePauseInstance instanceId => togglePauseInstance instanceId
  | call_stopInstance instanceId => stopInstance instanceId
  | call_stopAll => stopAll
  | call_saveSettings => saveSettings
  | call_handleSeekStart instanceId => handleSeekStart instanceId
  | call_handleSeek instanceId v => modify_world (handleSeek instanceId v)
  | call_handleSeekEnd instanceId => handleSeekEnd instanceId
  end.

(** The inputs handled one after the other, each to its end before the next
    one is taken, and each against its own environment. *)
Fixpoint react_all (inputs : list (Input * (Command -> Response))) (w : World) : World :=
  match inputs with
  | [] => w
  | (i, env) :: inputs' => react_all inputs' (final (run env (react i w)))
  end.

(** No button counts a negative number of instances. *)
Definition counters_nonneg (w : World) : Prop :=
  Forall (fun b => 0 <= SoundButton.activeInstances b) (buttons (store w)).

(** [never_raises t]: no rejection escapes [t], however the awaited commands
    settle. *)
Fixpoint never_raises {A : Type} (t : Task A) : Prop :=
  match t with
  | Return _ _ => True
  | Raise _ => False
  | Await _ _ k => forall r, never_raises (k r)
  end.

(** An environment in which every command succeeds. *)
Definition all_resolved (env : Command -> Response) : Prop :=
  forall c, exists v, env c = Resolved v.

(** A whole seek gesture on one slider: pointer down, the slider moved to
    [v], pointer up. The engine answers [handleSeekStart] as [env1] says and
    [handleSeekEnd] as [env2] says. *)
Definition drag_to (instanceId v : Z) (env1 : Command -> Response) (w : World) : World :=
  handleSeek instanceId [v] (final (run env1 (handleSeekStart instanceId w))).

Definition seek_gesture (instanceId v : Z) (env1 env2 : Command -> Response)
    (w : World) : World :=
  final (run env2 (handleSeekEnd instanceId (drag_to instanceId v env1 w))).

(** The nine entries [saveSettings] writes for a store, over the entries the
    plugin already holds. *)
Definition saved_entries (s : Store) (entries : gmap string Saved) : gmap string Saved :=
  <["controlsSide" := SavedString (controlsSide_string (controlsSide s))]>
  (<["titlebarStyle" := SavedString (titlebarStyle_string (titlebarStyle s))]>
  (<["accentColor" := SavedString (accentColor s)]>
  (<["reducedMotion" := SavedBool (reducedMotion s)]>
  (<["pageNames" := SavedStrings (pageNames s)]>
  (<["totalPages" := SavedInteger (totalPages s)]>
  (<["currentDevice" := SavedString (currentDevice s)]>
  (<["masterVolume" := SavedNumber (masterVolume s)]>
  (<["buttons" := SavedButtons (buttonsToSave s)]> entries)))))))).

(** ** Rebuilding the buttons (stores/audio.ts, [init] and [loadSettings]) *)

(** The template string [`Button ${i + 1}`]. *)
Definition default_name (i : Z) : string := "Button " +:+ pretty (i + 1).

(** The button that [init] and [addPage] push for the id [i]. *)
Definition default_button (i : Z) : SoundButton.t :=
  SoundButton.mk i None (default_name i) (1 # 2) "bg-secondary" false 0.

(** The loop of [init] that fills an empty [buttons]. *)
Definition init_buttons (totalButtons : Z) : list SoundButton.t :=
  default_button <$> seqZ 0 totalButtons.

(** [x || fallback] on strings: the empty string is falsy. *)
Definition string_or (x fallback : string) : string :=
  if bool_decide (x = EmptyString) then fallback else x.

(** One turn of the loop of [loadSettings]; [savedButtons] is what
    [store.get("buttons")] returned ([None] for [null] or [undefined]), with
    the fields as [saveSettings] writes them. *)
Definition restored_button (savedButtons : option (list SavedButton)) (i : Z)
    : SoundButton.t :=
  let saved :=
    savedButtons ≫= List.find (fun sb => bool_decide (saved_id sb = i)) in
  SoundButton.mk i
    (match saved ≫= saved_path with
     | Some p => if bool_decide (p = EmptyString) then None else Some p
     | None => None
     end)
    (match saved with
     | Some sb => string_or (saved_name sb) (default_name i)
     | None => default_name i
     end)
    (match saved with
     | Some sb => saved_volume sb
     | None => 1 # 2
     end)
    (match saved with
     | Some sb => string_or (saved_color sb) "bg-secondary"
     | None => "bg-secondary"
     end)
    false 0.

(** The loop of [loadSettings] that rebuilds [buttons]. *)
Definition loadSettings_buttons (savedButtons : option (list SavedButton))
    (totalButtons : Z) : list SoundButton.t :=
  restored_button savedButtons <$> seqZ 0 totalButtons.

(** Every button's id is its index in [buttons]. *)
Definition ids_are_indexes (l : list SoundButton.t) : Prop :=
  forall (n : nat) (b : SoundButton.t), l !! n = Some b -> SoundButton.id b = Z.of_nat n.

(** A button none of whose saved fields is replaced by a default on
    loading. *)
Definition survives_reload (b : SoundButton.t) : Prop :=
  SoundButton.path b <> Some EmptyString
  /\ SoundButton.name b <> EmptyString
  /\ SoundButton.color b <> EmptyString.

(** A two-button board whose ids are the indexes. *)
Definition store_two : Store :=
  set_buttons
    [SoundButton.mk 0 (Some "boom.wav") "Boom" (4 # 5) "bg-red-500" true 2;
     SoundButton.mk 1 None "Button 2" (1 # 2) "bg-secondary" false 0]
    store0.

(** ** Pages (stores/audio.ts) *)

(** The two fields of the store's state that only the paging actions use. *)
Record Paging : Type := mkPaging {
  currentPage : Z;
  itemsPerPage : Z
}.

Definition set_currentPage (v : Z) (pg : Paging) : Paging :=
  mkPaging v (itemsPerPage pg).

Definition set_totalPages (v : Z) (s : Store) : Store :=
  mkStore (buttons s) (masterVolume s) (currentDevice s) (activeProgresses s)
    (seekingInstanceId s) (seekRecovery s) v (pageNames s)
    (reducedMotion s) (accentColor s) (masterLevels s) (titlebarStyle s)
    (controlsSide s).

Definition set_pageNames (v : list string) (s : Store) : Store :=
  mkStore (buttons s) (masterVolume s) (currentDevice s) (activeProgresses s)
    (seekingInstanceId s) (seekRecovery s) (totalPages s) v
    (reducedMotion s) (accentColor s) (masterLevels s) (titlebarStyle s)
    (controlsSide s).

(** [Array.prototype.slice(start, end)]: a negative bound counts from the
    end of the array, and both bounds are clamped to it. *)
Definition slice {A : Type} (start end_ : Z) (l : list A) : list A :=
  let len := Z.of_nat (length l) in
  let k := if start <? 0 then Z.max (len + start) 0 else Z.min start len in
  let final := if end_ <? 0 then Z.max (len + end_) 0 else Z.min end_ len in
  take (Z.to_nat (final - k)) (drop (Z.to_nat k) l).

(** The getter [paginatedButtons]. *)
Definition paginatedButtons (s : Store) (pg : Paging) : list SoundButton.t :=
  let start := currentPage pg * itemsPerPage pg in
  slice start (start + itemsPerPage pg) (buttons s).

(** [preloadCurrentPage]: the paths handed to [invoke("preload_sound", ...)],
    in order. The calls are not awaited and their rejections are swallowed,
    so they leave no trace in the state. *)
Definition preloadCurrentPage (s : Store) (pg : Paging) : list string :=
  omap (fun btn => if path_missing btn then None else SoundButton.path btn)
       (paginatedButtons s pg).

(** The paging actions give the new paging fields and the paths they ask the
    engine to preload. *)
Definition setPage (page : Z) (s : Store) (pg : Paging) : Paging * list string :=
  if (0 <=? page) && (page <? totalPages s)
  then let pg' := set_currentPage page pg in (pg', preloadCurrentPage s pg')
  else (pg, []).

Definition nextPage (s : Store) (pg : Paging) : Paging * list string :=
  if currentPage pg <? totalPages s - 1
  then let pg' := set_currentPage (currentPage pg + 1) pg in (pg', preloadCurrentPage s pg')
  else (pg, []).

Definition prevPage (s : Store) (pg : Paging) : Paging * list string :=
  if 0 <? currentPage pg
  then let pg' := set_currentPage (currentPage pg - 1) pg in (pg', preloadCurrentPage s pg')
  else (pg, []).

(** [addPage]. Its last statements start [saveSettings] without awaiting it
    and show a toast. *)
Definition addPage (pg : Paging) : Action Paging :=
  s <- get_store ;;
  let newPageCount := totalPages s + 1 in
  let startId := Z.of_nat (length (buttons s)) in
  modify_store (fun s =>
    set_buttons
      (buttons s ++ ((fun i => default_button (startId + i)) <$> seqZ 0 (itemsPerPage pg)))
      s) ;;;
  modify_store (fun s =>
    set_pageNames (pageNames s ++ ["Page " +:+ pretty newPageCount]) s) ;;;
  modify_store (set_totalPages newPageCount) ;;;
  saveSettings ;;;
  ret (set_currentPage (newPageCount - 1) pg).

(** [updatePageName] *)
Definition updatePageName (index : Z) (name : string) : Action unit :=
  s <- get_store ;;
  if (0 <=? index) && (index <? Z.of_nat (length (pageNames s)))
  then
    modify_store (fun s => set_pageNames (<[Z.to_nat index := name]> (pageNames s)) s) ;;;
    saveSettings
  else ret tt.

(** The page shown exists. *)
Definition page_valid (s : Store) (pg : Paging) : Prop :=
  0 <= currentPage pg < totalPages s.

(** The grid is full: [itemsPerPage] buttons for each page, numbered by their
    position. *)
Definition grid_full (s : Store) (pg : Paging) : Prop :=
  0 <= itemsPerPage pg
  /\ 0 <= totalPages s
  /\ Z.of_nat (length (buttons s)) = itemsPerPage pg * totalPages s
  /\ ids_are_indexes (buttons s).

(** A full grid of two pages of two buttons, the second one having a sound. *)
Definition store_grid : Store :=
  set_totalPages 2
    (set_pageNames ["Page 1"; "Page 2"]
    (set_buttons
       [default_button 0;
        SoundButton.mk 1 (Some "boom.wav") "Boom" (4 # 5) "bg-secondary" false 0;
        default_button 2; default_button 3]
       store0)).

(** ** Editing a button (stores/audio.ts, GlowButton.vue) *)

(** A [Partial<SoundButton>]: the fields an update carries. *)
Record SoundButtonUpdates : Type := mkUpdates {
  new_id : option Z;
  new_path : option (option string);
  new_name : option string;
  new_volume : option Q;
  new_color : option string;
  new_isPaused : option bool;
  new_activeInstances : option Z
}.

(** The object literal [{ ...current, ...updates }]. *)
Definition spread (updates : SoundButtonUpdates) (current : SoundButton.t) : SoundButton.t :=
  SoundButton.mk
    (default (SoundButton.id current) (new_id updates))
    (default (SoundButton.path current) (new_path updates))
    (default (SoundButton.name current) (new_name updates))
    (default (SoundButton.volume current) (new_volume updates))
    (default (SoundButton.color current) (new_color updates))
    (default (SoundButton.isPaused current) (new_isPaused updates))
    (default (SoundButton.activeInstances current) (new_activeInstances updates)).

(** [updateButton]: [findIndex], the replacement of the element found, and
    [saveSettings] started as the last statement. *)
Definition updateButton (id : Z) (updates : SoundButtonUpdates) : Action unit :=
  s <- get_store ;;
  match find (id_eq id) (buttons s) with
  | Some _ =>
      modify_store (fun s =>
        set_buttons (update_found (id_eq id) (spread updates) (buttons s)) s) ;;;
      saveSettings
  | None => ret tt
  end.

(** [handleVolumeChange] of a button of the grid. *)
Definition handleVolumeChange (id : Z) (v : list Q) : Action unit :=
  match v with
  | v0 :: _ => updateButton id (mkUpdates None None None (Some v0) None None None)
  | [] => ret tt
  end.

(** ** A rejection that arrives late (stores/audio.ts, [playSound]) *)

(** The position of the element [find] returns. *)
Fixpoint find_position {A : Type} (f : A -> bool) (l : list A) : option nat :=
  match l with
  | [] => None
  | x :: l' => if f x then Some 0%nat else S <$> find_position f l'
  end.

(** What [playSound] does once its [await] has settled, in the world as it
    is by then: nothing if the command was accepted, the
    [button.activeInstances--] of its [catch] if it was rejected. [button] is
    the object that [find] returned when the action started, and [n] its
    position in [buttons]; the object stays at that position as long as
    nothing replaces or moves the objects of the array, which the handlers
    of the engine's events, [stopInstance] and [stopAll] never do: they write
    into the objects where they are. *)
Definition playSound_settled (n : nat) (r : Response) (w : World) : World :=
  match r with
  | Resolved _ => w
  | Rejected =>
      set_store
        (set_buttons
           (alter (fun b => SoundButton.set_activeInstances
                              (SoundButton.activeInstances b - 1) b)
                  n (buttons (store w)))
           (store w)) w
  end.

(** * Properties *)

(** ** Running tasks *)

Lemma ends_in_run {A : Type} (P : World -> Prop) (t : Task A) env :
  ends_in P t -> P (final (run env t)).
Proof.
  induction t as [a w | w | c w k IH]; simpl; intros H; auto.
Qed.

Ltac settle :=
  repeat (let r := fresh "r" in let v := fresh "v" in
          intros r; destruct r as [v|]; simpl).

(** ** The snapshot handler *)

Section Snapshots.
Variables (now : Z) (payload : AudioProgress.t) (s : Store).

Let instance_id := AudioProgress.instance_id payload.

Lemma progress_gate_seeking :
  seekingInstanceId s = Some instance_id -> progress_gate payload s = None.
Proof.
  intros H. unfold progress_gate. fold instance_id.
  by rewrite bool_decide_eq_true_2.
Qed.

Lemma progress_gate_stale (t : Z) :
  seekRecovery s !! instance_id = Some t ->
  AudioProgress.position_ms payload < t - 100 ->
  progress_gate payload s = None.
Proof.
  intros Ht Hlt. unfold progress_gate. fold instance_id.
  case_bool_decide; [done|]. rewrite Ht.
  destruct (Z.geb_spec (AudioProgress.position_ms payload) (t - 100)); [lia | done].
Qed.

Lemma progress_gate_recovered (t : Z) :
  seekingInstanceId s <> Some instance_id ->
  seekRecovery s !! instance_id = Some t ->
  t - 100 <= AudioProgress.position_ms payload ->
  progress_gate payload s =
    Some (set_seekRecovery (delete instance_id (seekRecovery s)) s).
Proof.
  intros Hs Ht Hge. unfold progress_gate. fold instance_id.
  rewrite bool_decide_eq_false_2 by done. rewrite Ht.
  destruct (Z.geb_spec (AudioProgress.position_ms payload) (t - 100)); [done | lia].
Qed.

Lemma progress_gate_unarmed :
  seekingInstanceId s <> Some instance_id ->
  seekRecovery s !! instance_id = None ->
  progress_gate payload s = Some s.
Proof.
  intros Hs Ht. unfold progress_gate. fold instance_id.
  rewrite bool_decide_eq_false_2 by done. by rewrite Ht.
Qed.

(** What an accepted snapshot leaves in the table for its instance. *)
Lemma progress_apply_lookup :
  exists p,
    activeProgresses (progress_apply now payload s) !! instance_id = Some p
    /\ AudioProgress.last_sync_pos p = AudioProgress.position_ms payload
    /\ AudioProgress.last_sync_time p = now
    /\ AudioProgress.is_paused p = AudioProgress.is_paused payload
    /\ AudioProgress.duration_ms p = AudioProgress.duration_ms payload.
Proof.
  unfold progress_apply. fold instance_id.
  destruct (activeProgresses s !! instance_id) as [existing|]; simpl.
  - destruct (AudioProgress.is_paused payload) eqn:Hp; simpl.
    + match goal with |- context [if ?c then _ else _] => destruct c end; simpl;
        rewrite lookup_insert_eq; eexists; split; try done; simpl; auto.
    + rewrite lookup_insert_eq; eexists; split; try done; simpl; auto.
  - rewrite lookup_insert_eq; eexists; split; try done; simpl; auto.
Qed.

Lemma progress_apply_seekRecovery :
  seekRecovery (progress_apply now payload s) = seekRecovery s.
Proof.
  unfold progress_apply. fold instance_id.
  destruct (activeProgresses s !! instance_id) as [existing|]; simpl; [|done].
  destruct (AudioProgress.is_paused payload); simpl; [|done].
  match goal with |- context [if ?c then _ else _] => destruct c end; done.
Qed.
End Snapshots.

(** C1, as amended. For every incoming progress snapshot for an instance with
    an armed seek-recovery target [t]: if its position is strictly below
    [t - 100] it is discarded, the whole store (hence every field of the
    stored progress, and the armed target) staying as it was; if its position
    is at least [t - 100] and no seek drag is in progress on that instance,
    the target is cleared and the snapshot is applied exactly as a snapshot
    for an instance without a target is. *)
Theorem C1_recovery_gate (now : Z) (payload : AudioProgress.t) (s : Store) (t : Z) :
  seekRecovery s !! AudioProgress.instance_id payload = Some t ->
  (AudioProgress.position_ms payload < t - 100 ->
     listen_audio_progress now payload s = s)
  /\ (t - 100 <= AudioProgress.position_ms payload ->
      seekingInstanceId s <> Some (AudioProgress.instance_id payload) ->
      let cleared :=
        set_seekRecovery (delete (AudioProgress.instance_id payload) (seekRecovery s)) s in
      let s' := listen_audio_progress now payload s in
      seekRecovery s' !! AudioProgress.instance_id payload = None
      /\ s' = listen_audio_progress now payload cleared
      /\ exists p,
           activeProgresses s' !! AudioProgress.instance_id payload = Some p
           /\ AudioProgress.last_sync_pos p = AudioProgress.position_ms payload
           /\ AudioProgress.last_sync_time p = now
           /\ AudioProgress.is_paused p = AudioProgress.is_paused payload
           /\ AudioProgress.duration_ms p = AudioProgress.duration_ms payload).
Proof.
  intros Ht. split.
  - intros Hlt. unfold listen_audio_progress.
    by rewrite (progress_gate_stale _ _ t).
  - intros Hge Hs cleared s'. subst s'. unfold listen_audio_progress.
    rewrite (progress_gate_recovered _ _ t) by done. fold cleared.
    rewrite (progress_gate_unarmed payload cleared);
      [| done | by apply lookup_delete_eq].
    split; [| split; [done|]].
    + rewrite progress_apply_seekRecovery. by apply lookup_delete_eq.
    + apply progress_apply_lookup.
Qed.

(** While [handleSeekEnd] awaits the engine, the target 5000 is armed and the
    drag flag is still set: a snapshot at 5000 is dropped, the target stays
    armed and the stored progress is the one from before the drag. *)
Lemma C1_counterexample :
  let payload := boom 5000 false 0 in
  let s := store world_mid_seek in
  let s' := listen_audio_progress 10200 payload s in
  seekRecovery s !! 1 = Some 5000
  /\ seekingInstanceId s = Some 1
  /\ 5000 - 100 <= AudioProgress.position_ms payload
  /\ seekRecovery s' !! 1 = Some 5000
  /\ activeProgresses s' !! 1 = Some (boom 1000 true 10000).
Proof. vm_compute. repeat split; discriminate. Qed.

Lemma C1_witness :
  listen_audio_progress 10200 (boom 3000 false 0)
    (set_seekRecovery {[ 1 := 5000 ]} store0)
  = set_seekRecovery {[ 1 := 5000 ]} store0
  /\ seekRecovery
       (listen_audio_progress 10200 (boom 4950 false 0)
          (set_seekRecovery {[ 1 := 5000 ]} store0)) !! 1 = None.
Proof.
  pose proof (C1_recovery_gate 10200 (boom 3000 false 0)
                (set_seekRecovery {[ 1 := 5000 ]} store0) 5000 eq_refl) as [H1 _].
  pose proof (C1_recovery_gate 10200 (boom 4950 false 0)
                (set_seekRecovery {[ 1 := 5000 ]} store0) 5000 eq_refl) as [_ H2].
  split.
  - apply H1. simpl. lia.
  - apply H2; [simpl; lia | discriminate].
Defined.

(** ** The extrapolation loop *)

Lemma loop_lookup (now : Z) (s : Store) (instanceId : Z) :
  activeProgresses (loop now s) !! instanceId
  = loop_entry (seekingInstanceId s) now instanceId <$> activeProgresses s !! instanceId.
Proof.
  unfold loop; simpl. rewrite map_lookup_imap.
  by destruct (activeProgresses s !! instanceId).
Qed.

Lemma loop_seekingInstanceId now s : seekingInstanceId (loop now s) = seekingInstanceId s.
Proof. done. Qed.

Lemma loop_seekRecovery now s : seekRecovery (loop now s) = seekRecovery s.
Proof. done. Qed.

Lemma loop_entry_paused seeking now instanceId p :
  AudioProgress.is_paused p = true -> loop_entry seeking now instanceId p = p.
Proof. intros H. unfold loop_entry. rewrite H. by case_bool_decide. Qed.

Lemma loops_paused (nows : list Z) (s : Store) (instanceId : Z) (p : AudioProgress.t) :
  activeProgresses s !! instanceId = Some p ->
  AudioProgress.is_paused p = true ->
  activeProgresses (foldl (fun s now => loop now s) s nows) !! instanceId = Some p.
Proof.
  revert s. induction nows as [|now nows IH]; intros s Hp Hpaused; simpl; [done|].
  apply IH; [|done].
  rewrite loop_lookup, Hp. simpl. by rewrite loop_entry_paused.
Qed.

(** The slider of an instance that is not being dragged shows the stored
    position. *)
Lemma model_value_idle (w : World) (item : AudioProgress.t) :
  seekingInstanceId (store w) <> Some (AudioProgress.instance_id item) ->
  model_value w item = AudioProgress.position_ms item.
Proof.
  intros H. unfold model_value. destruct (localSeekValue w); [|done].
  by rewrite bool_decide_eq_false_2.
Qed.

(** C3. Between snapshots, for every active instance that is not being
    dragged, one animation frame at time [now] sets the position of a playing
    instance to the minimum of its duration and of [last_sync_pos] plus the
    time elapsed since [last_sync_time], and leaves every other field alone;
    it leaves a paused instance untouched, and so does any number of frames:
    the position does not drift during a pause. *)
Theorem C3_extrapolation (now : Z) (s : Store) (instanceId : Z) (p : AudioProgress.t) :
  activeProgresses s !! instanceId = Some p ->
  seekingInstanceId s <> Some instanceId ->
  (AudioProgress.is_paused p = false ->
     activeProgresses (loop now s) !! instanceId
     = Some (AudioProgress.set_position_ms
               (Z.min (AudioProgress.duration_ms p)
                      (AudioProgress.last_sync_pos p
                       + (now - AudioProgress.last_sync_time p))) p))
  /\ (AudioProgress.is_paused p = true ->
        activeProgresses (loop now s) !! instanceId = Some p
        /\ forall nows : list Z,
             activeProgresses (foldl (fun s now => loop now s) s nows) !! instanceId
             = Some p).
Proof.
  intros Hp Hs. split; intros Hpaused.
  - rewrite loop_lookup, Hp. simpl. unfold loop_entry.
    rewrite bool_decide_eq_false_2 by done. by rewrite Hpaused.
  - split.
    + apply (loops_paused [now]); done.
    + intros nows. by apply loops_paused.
Qed.

Lemma C3_witness :
  activeProgresses (loop 10250 store0) !! 1
  = Some (AudioProgress.mk "3" 1 "Boom" 1250 8000 false 10000 1000)
  /\ activeProgresses (loop 99999 store0) !! 1
     = Some (AudioProgress.mk "3" 1 "Boom" 8000 8000 false 10000 1000)
  /\ activeProgresses
       (foldl (fun s now => loop now s)
          (set_activeProgresses {[ 1 := boom 1000 true 10000 ]} store0)
          [10016; 10033; 10050]) !! 1
     = Some (boom 1000 true 10000).
Proof.
  split; [| split].
  - apply (C3_extrapolation 10250 store0 1 (boom 1000 false 10000));
      [reflexivity | discriminate | reflexivity].
  - apply (C3_extrapolation 99999 store0 1 (boom 1000 false 10000));
      [reflexivity | discriminate | reflexivity].
  - apply (C3_extrapolation 0
             (set_activeProgresses {[ 1 := boom 1000 true 10000 ]} store0) 1
             (boom 1000 true 10000));
      [reflexivity | discriminate | reflexivity].
Defined.

(** ** During a drag *)

(** C10. While a seek drag is in progress on an instance, a progress
    snapshot for it leaves the whole store as it was, an animation frame
    leaves its stored progress as it was, and its slider shows the local
    slider value, whatever the stored position is. *)
Theorem C10_frozen_while_dragging (w : World) (instanceId v : Z) :
  dragging instanceId v w ->
  (forall now payload,
      AudioProgress.instance_id payload = instanceId ->
      listen_audio_progress now payload (store w) = store w)
  /\ (forall now,
        activeProgresses (loop now (store w)) !! instanceId
        = activeProgresses (store w) !! instanceId)
  /\ (forall item,
        AudioProgress.instance_id item = instanceId ->
        model_value w item = v).
Proof.
  intros [Hseek Hlocal]. split; [| split].
  - intros now payload Hid. unfold listen_audio_progress.
    rewrite progress_gate_seeking; [done | by rewrite Hid].
  - intros now. rewrite loop_lookup.
    destruct (activeProgresses (store w) !! instanceId) as [p|]; [|done].
    simpl. unfold loop_entry. by rewrite bool_decide_eq_true_2.
  - intros item Hid. unfold model_value. rewrite Hlocal, Hid.
    by rewrite bool_decide_eq_true_2.
Qed.

Lemma handleSeekStart_dragging (w : World) (instanceId : Z) (item : AudioProgress.t) :
  activeProgresses (store w) !! instanceId = Some item ->
  throughout (dragging instanceId (AudioProgress.position_ms item))
             (handleSeekStart instanceId w).
Proof.
  intros Hitem. unfold handleSeekStart, bind, get_store. simpl. rewrite Hitem. simpl.
  destruct (AudioProgress.is_paused item); simpl.
  - by split.
  - split; [by split|]. intros [v|]; simpl.
    + destruct (activeProgresses (store w) !! instanceId); by split.
    + by split.
Qed.

Lemma handleSeek_dragging (w : World) (instanceId v v0 : Z) (vs : list Z) :
  dragging instanceId v w -> dragging instanceId v0 (handleSeek instanceId (v0 :: vs) w).
Proof.
  intros [Hseek Hlocal]. unfold handleSeek.
  rewrite bool_decide_eq_true_2 by done. by split.
Qed.

Lemma C10_witness :
  listen_audio_progress 10200 (boom 1200 true 0) (store world_dragging)
  = store world_dragging
  /\ activeProgresses (loop 10200 (store world_dragging)) !! 1
     = activeProgresses (store world_dragging) !! 1
  /\ model_value world_dragging (boom 1000 true 10000) = 5000.
Proof.
  destruct (C10_frozen_while_dragging world_dragging 1 5000 (conj eq_refl eq_refl))
    as (H1 & H2 & H3).
  split; [| split].
  - by apply H1.
  - apply H2.
  - by apply H3.
Defined.

(** ** The drag flag and the slider value go together *)

Lemma handleSeek_drag_has_value (w : World) (instanceId : Z) (v : list Z) :
  drag_has_value w -> drag_has_value (handleSeek instanceId v w).
Proof.
  intros Hinv. unfold handleSeek. destruct v as [|v0 v]; [done|].
  case_bool_decide; [| done]. intros _. by eexists.
Qed.

Lemma togglePauseInstance_drag_has_value (w : World) (instanceId : Z) :
  drag_has_value w -> throughout drag_has_value (togglePauseInstance instanceId w).
Proof.
  intros Hinv. unfold togglePauseInstance, try_catch, bind, await, modify_store.
  simpl. split; [done|]. intros [v|]; simpl; [| done].
  by destruct (activeProgresses (store w) !! instanceId).
Qed.

Lemma handleSeekStart_drag_has_value (w : World) (instanceId : Z) :
  drag_has_value w -> throughout drag_has_value (handleSeekStart instanceId w).
Proof.
  intros Hinv. unfold handleSeekStart, bind, get_store. simpl.
  destruct (activeProgresses (store w) !! instanceId) as [item|] eqn:Hitem;
    simpl; [| done].
  assert (forall w', localSeekValue w' = Some (AudioProgress.position_ms item) ->
                     drag_has_value w') as Hset.
  { intros w' Hw' _. rewrite Hw'. by eexists. }
  destruct (AudioProgress.is_paused item); simpl; [by apply Hset|].
  split; [by apply Hset|]. intros [v|]; simpl; [| by apply Hset].
  rewrite Hitem. by apply Hset.
Qed.

Lemma handleSeekEnd_drag_has_value (w : World) (instanceId : Z) :
  drag_has_value w -> throughout drag_has_value (handleSeekEnd instanceId w).
Proof.
  intros Hinv.
  assert (forall w', seekingInstanceId (store w') = None -> drag_has_value w') as Hoff.
  { intros w' Hw' [x Hx]. congruence. }
  assert (forall w', seekingInstanceId (store w') = seekingInstanceId (store w) ->
                     localSeekValue w' = localSeekValue w -> drag_has_value w') as Hsame.
  { intros w' H1 H2. unfold drag_has_value. by rewrite H1, H2. }
  unfold handleSeekEnd, Math_round, bind, get_world. simpl.
  destruct (activeProgresses (store w) !! instanceId) as [item|] eqn:Hitem; simpl.
  - destruct (localSeekValue w) as [t|] eqn:Hlocal; simpl.
    + split; [by apply Hsame|]. intros [v|]; simpl; [| by apply Hsame].
      rewrite lookup_alter_eq, Hitem. simpl.
      destruct (default false (wasPlayingBeforeSeek w !! instanceId)); simpl;
        [| by apply Hoff].
      destruct (AudioProgress.is_paused item); simpl; [| by apply Hoff].
      split; [by apply Hsame|]. intros [b|]; simpl; [| by apply Hoff].
      rewrite lookup_alter_eq, Hitem. simpl. by apply Hoff.
    + rewrite Hitem. simpl.
      destruct (default false (wasPlayingBeforeSeek w !! instanceId)); simpl;
        [| by apply Hoff].
      destruct (AudioProgress.is_paused item); simpl; [| by apply Hoff].
      split; [by apply Hsame|]. intros [b|]; simpl; [| by apply Hoff].
      rewrite Hitem. simpl. by apply Hoff.
  - rewrite Hitem. simpl. rewrite andb_false_r. simpl. by apply Hoff.
Qed.

Lemma observe_seekingInstanceId (e : Event) (s : Store) :
  seekingInstanceId (observe e s) = seekingInstanceId s.
Proof.
  destruct e as [now payload | now]; simpl; [| done].
  unfold listen_audio_progress, progress_gate.
  case_bool_decide; [done|].
  assert (forall s0, seekingInstanceId (progress_apply now payload s0)
                     = seekingInstanceId s0) as Happly.
  { intros s0. unfold progress_apply.
    destruct (activeProgresses s0 !! AudioProgress.instance_id payload); simpl; [|done].
    destruct (AudioProgress.is_paused payload); simpl; [|done].
    match goal with |- context [if ?c then _ else _] => destruct c end; done. }
  destruct (seekRecovery s !! AudioProgress.instance_id payload).
  - destruct (_ >=? _); [| done]. by rewrite Happly.
  - by rewrite Happly.
Qed.

Lemma after_drag_has_value (events : list Event) (w : World) :
  drag_has_value w -> drag_has_value (after events w).
Proof.
  intros Hinv. unfold drag_has_value, after. simpl.
  assert (seekingInstanceId (observe_all events (store w)) = seekingInstanceId (store w))
    as ->; [| done].
  unfold observe_all. generalize (store w).
  induction events as [|e events IH]; intros s; simpl; [done|].
  by rewrite IH, observe_seekingInstanceId.
Qed.

(** In a world where the flag and the value go together, a drag in progress
    always has a slider value. *)
Lemma drag_has_value_dragging (w : World) (instanceId : Z) :
  drag_has_value w ->
  seekingInstanceId (store w) = Some instanceId ->
  exists v, dragging instanceId v w.
Proof.
  intros Hinv Hseek. destruct Hinv as [v Hv]; [by eexists|]. by exists v.
Qed.

(** ** Ending a seek gesture *)

Lemma handleSeekEnd_suspends (w : World) (instanceId t : Z) (item : AudioProgress.t) :
  activeProgresses (store w) !! instanceId = Some item ->
  localSeekValue w = Some t ->
  exists w1 k,
    handleSeekEnd instanceId w = Await (seek_instance instanceId t) w1 k
    /\ store w1 = set_seekRecovery (<[instanceId := t]> (seekRecovery (store w))) (store w)
    /\ k Rejected = Raise w1.
Proof.
  intros Hitem Hlocal. unfold handleSeekEnd, Math_round, bind, get_world. simpl.
  rewrite Hitem, Hlocal. simpl. eexists _, _. split; [reflexivity|]. by split.
Qed.

Lemma handleSeekEnd_position (w : World) (instanceId t : Z) (item : AudioProgress.t)
    (env : Command -> Response) (v : Value) :
  activeProgresses (store w) !! instanceId = Some item ->
  localSeekValue w = Some t ->
  env (seek_instance instanceId t) = Resolved v ->
  let w' := final (run env (handleSeekEnd instanceId w)) in
  seekingInstanceId (store w') = None
  /\ exists item',
       activeProgresses (store w') !! instanceId = Some item'
       /\ AudioProgress.position_ms item' = t.
Proof.
  intros Hitem Hlocal Henv. unfold handleSeekEnd, Math_round, bind, get_world. simpl.
  rewrite Hitem, Hlocal. simpl. rewrite Henv. simpl.
  rewrite lookup_alter_eq, Hitem. simpl.
  destruct (default false (wasPlayingBeforeSeek w !! instanceId)); simpl.
  - destruct (AudioProgress.is_paused item); simpl.
    + destruct (env (toggle_pause_instance instanceId)) as [b|]; simpl.
      * rewrite lookup_alter_eq, Hitem. simpl. split; [done|].
        rewrite lookup_insert_eq. eexists; split; done.
      * split; [done|]. rewrite lookup_alter_eq, Hitem. eexists; split; done.
    + split; [done|]. rewrite lookup_alter_eq, Hitem. eexists; split; done.
  - split; [done|]. rewrite lookup_alter_eq, Hitem. eexists; split; done.
Qed.

(** C4, as amended. When the caller ends a seek gesture on an active
    instance, with the slider standing at [t]: the handler suspends on the
    [seek_instance] command, and the world it exposes at that moment already
    has [t] recorded as the recovery target of the instance; once the engine
    has accepted the command, the stored position of the instance is [t], and
    so is the position its slider shows. *)
Theorem C4_seek_end (w : World) (instanceId t : Z) (item : AudioProgress.t) :
  activeProgresses (store w) !! instanceId = Some item ->
  localSeekValue w = Some t ->
  (exists w1 k,
     handleSeekEnd instanceId w = Await (seek_instance instanceId (Math_round t)) w1 k
     /\ seekRecovery (store w1) !! instanceId = Some t)
  /\ (forall env v,
        env (seek_instance instanceId (Math_round t)) = Resolved v ->
        let w' := final (run env (handleSeekEnd instanceId w)) in
        exists item',
          activeProgresses (store w') !! instanceId = Some item'
          /\ AudioProgress.position_ms item' = t
          /\ model_value w' item' = t).
Proof.
  intros Hitem Hlocal. split.
  - destruct (handleSeekEnd_suspends w instanceId t item Hitem Hlocal)
      as (w1 & k & Heq & Hstore & _).
    exists w1, k. split; [done|]. rewrite Hstore. simpl. apply lookup_insert_eq.
  - intros env v Henv w'.
    destruct (handleSeekEnd_position w instanceId t item env v Hitem Hlocal Henv)
      as (Hseek & item' & Hlookup & Hpos).
    exists item'. split; [done|]. split; [done|].
    rewrite model_value_idle; [done|]. subst w'. rewrite Hseek. discriminate.
Qed.

Lemma C4_witness :
  (exists w1 k,
     handleSeekEnd 1 world_dragging = Await (seek_instance 1 5000) w1 k
     /\ seekRecovery (store w1) !! 1 = Some 5000)
  /\ exists item',
       activeProgresses (store world_after_seek) !! 1 = Some item'
       /\ AudioProgress.position_ms item' = 5000
       /\ model_value world_after_seek item' = 5000.
Proof.
  destruct (C4_seek_end world_dragging 1 5000 (boom 1000 true 10000) eq_refl eq_refl)
    as [H1 H2].
  split; [exact H1|].
  exact (H2 (engine_ok false) VUndefined eq_refl).
Defined.

(** The engine rejects the seek that ends the drag of [world_dragging] to
    5000: the command was sent with the target armed, the handler is
    aborted, and the stored position of instance 1 is still 1000. *)
Lemma C4_counterexample :
  localSeekValue world_dragging = Some 5000
  /\ issued engine_down (handleSeekEnd 1 world_dragging) = [seek_instance 1 5000]
  /\ run engine_down (handleSeekEnd 1 world_dragging) = Aborted world_mid_seek
  /\ seekRecovery (store world_mid_seek) !! 1 = Some 5000
  /\ AudioProgress.position_ms <$> activeProgresses (store world_mid_seek) !! 1 = Some 1000
  /\ 1000 <> 5000.
Proof. vm_compute. repeat split; discriminate. Qed.

(** ** Writes through the reference returned by [find] *)

Section UpdateFound.
Context {A : Type} (f : A -> bool).

Lemma find_update_found (g : A -> A) (l : list A) (x : A) :
  find f l = Some x -> f (g x) = true ->
  find f (update_found f g l) = Some (g x).
Proof.
  unfold find. induction l as [|y l IH]; simpl; [done|].
  destruct (f y) eqn:Hy; simpl.
  - intros [= ->] Hg. by rewrite Hg.
  - intros Hx Hg. rewrite Hy. by apply IH.
Qed.

Lemma find_update_found_None (g : A -> A) (l : list A) :
  find f l = None -> update_found f g l = l.
Proof.
  unfold find. induction l as [|y l IH]; simpl; [done|].
  destruct (f y); [done|]. intros H. by rewrite IH.
Qed.

Lemma update_found_twice (g h : A -> A) (l : list A) :
  (forall x, f x = true -> f (g x) = true) ->
  update_found f h (update_found f g l) = update_found f (fun x => h (g x)) l.
Proof.
  intros Hg. induction l as [|y l IH]; simpl; [done|].
  destruct (f y) eqn:Hy; simpl.
  - by rewrite (Hg y Hy).
  - by rewrite Hy, IH.
Qed.

Lemma map_update_found {B : Type} (proj : A -> B) (g : A -> A) (l : list A) :
  (forall x, proj (g x) = proj x) ->
  List.map proj (update_found f g l) = List.map proj l.
Proof.
  intros Hg. induction l as [|y l IH]; simpl; [done|].
  destruct (f y); simpl; [by rewrite Hg | by rewrite IH].
Qed.

Lemma update_found_ext (g h : A -> A) (l : list A) :
  (forall x, f x = true -> g x = h x) ->
  update_found f g l = update_found f h l.
Proof.
  intros Hg. induction l as [|y l IH]; simpl; [done|].
  destruct (f y) eqn:Hy; [by rewrite (Hg y Hy) | by rewrite IH].
Qed.
End UpdateFound.

(** ** Playing a sound *)

(** C9. For a button that has a sound, [playSound] suspends on the
    [play_sound] command with the button's counter already incremented; if
    the command is rejected the counter is decremented again, and every
    button's [activeInstances] is what it was before the call. *)
Theorem C9_play_failure (w : World) (buttonId : Z) (button : SoundButton.t) :
  find (id_eq buttonId) (buttons (store w)) = Some button ->
  path_missing button = false ->
  exists path w1 k,
    SoundButton.path button = Some path
    /\ playSound buttonId w
       = Await (play_sound (pretty buttonId) path (SoundButton.name button)
                  (SoundButton.volume button)) w1 k
    /\ (exists b1,
          find (id_eq buttonId) (buttons (store w1)) = Some b1
          /\ SoundButton.activeInstances b1 = SoundButton.activeInstances button + 1)
    /\ exists w2,
         k Rejected = Return tt w2
         /\ List.map SoundButton.activeInstances (buttons (store w2))
            = List.map SoundButton.activeInstances (buttons (store w)).
Proof.
  intros Hfind Hpath.
  assert (exists path, SoundButton.path button = Some path) as [path Hp].
  { unfold path_missing in Hpath. destruct (SoundButton.path button); [eauto | done]. }
  exists path. unfold playSound, bind, get_store. simpl. rewrite Hfind, Hpath. simpl.
  rewrite Hp. simpl. eexists _, _. split; [done|]. split; [reflexivity|]. split.
  - eexists. split.
    + apply find_update_found; [done|]. simpl.
      apply (find_some _ _ Hfind).
    + done.
  - eexists. split; [reflexivity|]. simpl.
    rewrite update_found_twice by done. simpl.
    rewrite (update_found_ext _ _ (SoundButton.set_isPaused false)).
    + by apply map_update_found.
    + intros [i p n v c ip ai] _. unfold SoundButton.set_isPaused,
        SoundButton.set_activeInstances. simpl. f_equal. lia.
Qed.

Lemma C9_witness :
  exists w1 k,
    playSound 3 world0 = Await (play_sound "3" "boom.wav" "Boom" (4 # 5)) w1 k
    /\ List.map SoundButton.activeInstances (buttons (store w1)) = [2; 0]
    /\ List.map SoundButton.activeInstances (buttons (store (final (run engine_down (playSound 3 world0)))))
       = [1; 0].
Proof.
  destruct (C9_play_failure world0 3 (button3 1) eq_refl eq_refl)
    as (path & w1 & k & Hp & Heq & _ & w2 & Hk & Hmap).
  injection Hp as <-.
  exists w1, k. split; [exact Heq|].
  injection Heq as <- <-. split; reflexivity.
Defined.

(** ** Composition of tasks *)

Lemma ends_in_weaken {A : Type} (P Q : World -> Prop) (t : Task A) :
  (forall w, P w -> Q w) -> ends_in P t -> ends_in Q t.
Proof.
  intros HPQ. induction t as [a w | w | c w k IH]; simpl; auto.
Qed.

Lemma ends_in_bind {A B : Type} (P Q : World -> Prop) (t : Task A)
    (f : A -> World -> Task B) :
  ends_in Q t ->
  (forall w, Q w -> P w) ->
  (forall a w, Q w -> ends_in P (f a w)) ->
  ends_in P (task_bind t f).
Proof.
  intros Ht HQP Hf. induction t as [a w | w | c w k IH]; simpl in *; auto.
Qed.

Lemma ends_in_catch {A : Type} (P Q : World -> Prop) (t : Task A)
    (h : World -> Task A) :
  ends_in Q t ->
  (forall w, Q w -> P w) ->
  (forall w, Q w -> ends_in P (h w)) ->
  ends_in P (task_catch t h).
Proof.
  intros Ht HQP Hh. induction t as [a w | w | c w k IH]; simpl in *; auto.
Qed.

(** ** Settings *)

(** [saveSettings] writes to the plugin only: the store is left as it was. *)
Lemma saveSettings_store (w : World) :
  ends_in (fun w' => store w' = store w) (saveSettings w).
Proof.
  unfold saveSettings, try_catch, store_set_entry, bind, await, get_store, modify_world, ret.
  simpl. settle; done.
Qed.

(** C7. If the [set_audio_device] command fails, [setOutputDevice] leaves
    the world as it was: the current device is the previous one and no
    setting is written. If the command succeeds, the current device is the
    new name, however the saving of the settings goes. *)
Theorem C7_device_switch (w : World) (deviceName : string) (env : Command -> Response) :
  (env (set_audio_device deviceName) = Rejected ->
     run env (setOutputDevice deviceName w) = Completed tt w)
  /\ (forall v, env (set_audio_device deviceName) = Resolved v ->
        currentDevice (store (final (run env (setOutputDevice deviceName w))))
        = deviceName).
Proof.
  split.
  - intros Henv. unfold setOutputDevice, try_catch, bind, await. simpl.
    by rewrite Henv.
  - intros v Henv. unfold setOutputDevice, try_catch, bind, await. simpl.
    rewrite Henv. simpl.
    apply (ends_in_run (fun w' => currentDevice (store w') = deviceName)).
    eapply ends_in_catch; [| intros w' Hw'; exact Hw' | intros w' Hw'; exact Hw'].
    eapply ends_in_weaken; [| apply saveSettings_store].
    simpl. by intros w' ->.
Qed.

Lemma C7_witness :
  run engine_down (setOutputDevice "VoiceMeeter Input" world0) = Completed tt world0
  /\ currentDevice (store (final (run (engine_ok false)
                                    (setOutputDevice "VoiceMeeter Input" world0))))
     = "VoiceMeeter Input".
Proof.
  split.
  - apply (C7_device_switch world0 "VoiceMeeter Input" engine_down). reflexivity.
  - apply (C7_device_switch world0 "VoiceMeeter Input" (engine_ok false)) with VUndefined.
    reflexivity.
Defined.

(** C8. Whatever the volume, and however the engine and the settings plugin
    answer, [setMasterVolume] changes the [masterVolume] field of the store
    and nothing else in it: every button is what it was, its stored volume in
    particular. *)
Theorem C8_master_volume (w : World) (volume : Q) (env : Command -> Response) :
  let s' := store (final (run env (setMasterVolume volume w))) in
  s' = set_masterVolume volume (store w)
  /\ buttons s' = buttons (store w)
  /\ List.map SoundButton.volume (buttons s') = List.map SoundButton.volume (buttons (store w)).
Proof.
  intros s'.
  assert (s' = set_masterVolume volume (store w)) as Hs.
  { subst s'. unfold setMasterVolume, try_catch, bind, await, modify_store. simpl.
    destruct (env (update_master_volume volume)) as [v|]; simpl; [|done].
    apply (ends_in_run (fun w' => store w' = set_masterVolume volume (store w))).
    eapply ends_in_catch; [| intros w' Hw'; exact Hw' | intros w' Hw'; exact Hw'].
    eapply ends_in_weaken; [| apply saveSettings_store].
    simpl. by intros w' ->. }
  rewrite Hs. done.
Qed.

(** ** Stopping *)

(** C5, as amended. [stopAll] always completes, from any prior world, the
    one with no active instance included, and sends the engine the single
    command [stop_all]. When the engine accepts it, the table of active
    progresses is empty afterwards and every button has [activeInstances] 0
    and [isPaused] false; the buttons are otherwise what they were and so is
    the rest of the store. When the engine rejects it, the world is left as
    it was. *)
Theorem C5_stop_all (w : World) (env : Command -> Response) :
  issued env (stopAll w) = [stop_all]
  /\ (forall v, env stop_all = Resolved v ->
        exists w',
          run env (stopAll w) = Completed tt w'
          /\ activeProgresses (store w') = ∅
          /\ Forall (fun b => SoundButton.activeInstances b = 0
                              /\ SoundButton.isPaused b = false)
                    (buttons (store w'))
          /\ length (buttons (store w')) = length (buttons (store w))
          /\ buttonsToSave (store w') = buttonsToSave (store w)
          /\ set_buttons (buttons (store w))
               (set_activeProgresses (activeProgresses (store w)) (store w'))
             = store w)
  /\ (env stop_all = Rejected -> run env (stopAll w) = Completed tt w).
Proof.
  unfold stopAll, try_catch, bind, await, modify_store. simpl.
  split; [by destruct (env stop_all) | split].
  - intros v Henv. rewrite Henv. simpl. eexists. split; [reflexivity|]. simpl.
    split; [done|]. split; [| split; [apply length_map | split]].
    + apply Forall_forall. intros b Hb. apply list_elem_of_In, in_map_iff in Hb.
      destruct Hb as (b0 & <- & _). done.
    + unfold buttonsToSave. simpl. rewrite List.map_map. done.
    + by destruct (store w).
  - intros Henv. by rewrite Henv.
Qed.

(** The engine rejects [stop_all]: [stopAll] completes all the same, and
    instance 1 is still in the table, button 3 still counting one instance. *)
Lemma C5_counterexample :
  run engine_down (stopAll world0) = Completed tt world0
  /\ activeProgresses (store world0) !! 1 = Some (boom 1000 false 10000)
  /\ SoundButton.activeInstances <$> find (id_is "3") (buttons (store world0)) = Some 1
  /\ 1 <> 0.
Proof. vm_compute. repeat split; discriminate. Qed.

Lemma C5_witness :
  issued (engine_ok false) (stopAll world0) = [stop_all]
  /\ exists w',
       run (engine_ok false) (stopAll world0) = Completed tt w'
       /\ activeProgresses (store w') = ∅
       /\ Forall (fun b => SoundButton.activeInstances b = 0
                           /\ SoundButton.isPaused b = false)
                 (buttons (store w')).
Proof.
  destruct (C5_stop_all world0 (engine_ok false)) as (H1 & H2 & _).
  split; [exact H1|].
  destruct (H2 VUndefined eq_refl) as (w' & Hrun & Hempty & Hzero & _).
  exists w'. by repeat split.
Defined.

Lemma decrement_if_positive_id (key : string) (b : SoundButton.t) :
  id_is key (decrement_if_positive b) = id_is key b.
Proof. unfold decrement_if_positive. by destruct (0 <? _). Qed.

(** After [stopInstance] or a natural completion, an ["audio-finished"]
    event for the same instance finds nothing to do. *)
Lemma listen_audio_finished_absent (instanceId : Z) (s : Store) :
  activeProgresses s !! instanceId = None -> listen_audio_finished instanceId s = s.
Proof. intros H. unfold listen_audio_finished. by rewrite H. Qed.

(** [stopInstance], once the engine has answered, and the handler of
    ["audio-finished"] do the same bookkeeping. *)
Lemma stopInstance_resolved (w : World) (instanceId : Z) (env : Command -> Response)
    (v : Value) :
  env (stop_instance instanceId) = Resolved v ->
  run env (stopInstance instanceId w)
  = Completed tt (set_store (listen_audio_finished instanceId (store w)) w).
Proof.
  intros Henv. unfold stopInstance, try_catch, bind, await, modify_store. simpl.
  rewrite Henv. simpl. unfold listen_audio_finished.
  by destruct (activeProgresses (store w) !! instanceId).
Qed.

(** C6, as amended. After [stopInstance] completes for an active instance,
    the engine having accepted the stop: the instance is no longer in the
    table of active progresses and the other entries are untouched; the
    counter of its owning button is decremented by one if it was positive and
    left as it was otherwise; the only command issued is [stop_instance], and
    an ["audio-finished"] event for the instance would now change nothing. *)
Theorem C6_stop_instance (w : World) (instanceId : Z) (progress : AudioProgress.t)
    (env : Command -> Response) (v : Value) :
  activeProgresses (store w) !! instanceId = Some progress ->
  env (stop_instance instanceId) = Resolved v ->
  let w' := final (run env (stopInstance instanceId w)) in
  activeProgresses (store w') = delete instanceId (activeProgresses (store w))
  /\ (forall b,
        find (id_is (AudioProgress.id progress)) (buttons (store w)) = Some b ->
        exists b',
          find (id_is (AudioProgress.id progress)) (buttons (store w')) = Some b'
          /\ (0 < SoundButton.activeInstances b ->
                SoundButton.activeInstances b' = SoundButton.activeInstances b - 1)
          /\ (SoundButton.activeInstances b <= 0 ->
                SoundButton.activeInstances b' = SoundButton.activeInstances b))
  /\ issued env (stopInstance instanceId w) = [stop_instance instanceId]
  /\ listen_audio_finished instanceId (store w') = store w'.
Proof.
  intros Hp Henv w'. subst w'. rewrite (stopInstance_resolved _ _ _ v Henv). simpl.
  unfold listen_audio_finished at 1 2 3. rewrite Hp. simpl.
  split; [done|]. split; [| split].
  - intros b Hb. exists (decrement_if_positive b). split.
    + apply find_update_found; [done|]. rewrite decrement_if_positive_id.
      apply (find_some _ _ Hb).
    + unfold decrement_if_positive.
      destruct (Z.ltb_spec 0 (SoundButton.activeInstances b)); simpl; split; lia || done.
  - unfold stopInstance, try_catch, bind, await, modify_store. simpl.
    by rewrite Henv.
  - apply listen_audio_finished_absent. unfold listen_audio_finished. rewrite Hp.
    simpl. apply lookup_delete_eq.
Qed.

(** Instance 1 of the reset button 3 is stopped: it leaves the table, and the
    counter of button 3, which was 0, is still 0. *)
Lemma C6_counterexample :
  let w' := final (run (engine_ok false) (stopInstance 1 world_reset)) in
  activeProgresses (store world_reset) !! 1 = Some (boom 1000 false 10000)
  /\ activeProgresses (store w') !! 1 = None
  /\ SoundButton.activeInstances <$> find (id_is "3") (buttons (store world_reset)) = Some 0
  /\ SoundButton.activeInstances <$> find (id_is "3") (buttons (store w')) = Some 0
  /\ 0 <> 0 - 1.
Proof. vm_compute. repeat split; discriminate. Qed.

Lemma C6_witness :
  let w' := final (run (engine_ok false) (stopInstance 1 world0)) in
  activeProgresses (store w') = ∅
  /\ SoundButton.activeInstances <$> find (id_is "3") (buttons (store w')) = Some 0
  /\ issued (engine_ok false) (stopInstance 1 world0) = [stop_instance 1]
  /\ listen_audio_finished 1 (store w') = store w'.
Proof.
  destruct (C6_stop_instance world0 1 (boom 1000 false 10000) (engine_ok false)
              VUndefined eq_refl eq_refl) as (H1 & H2 & H3 & H4).
  cbv zeta in *. split; [| split; [| split]].
  - rewrite H1. reflexivity.
  - destruct (H2 (button3 1) eq_refl) as (b' & Hb' & Hpos & _).
    change (AudioProgress.id (boom 1000 false 10000)) with "3"%string in Hb'.
    rewrite Hb'. simpl. f_equal. apply Hpos. simpl. lia.
  - exact H3.
  - exact H4.
Defined.

(** ** Reconciliation after a seek *)

Lemma handleSeekEnd_armed (w : World) (instanceId t : Z) (item : AudioProgress.t) :
  activeProgresses (store w) !! instanceId = Some item ->
  localSeekValue w = Some t ->
  ends_in (fun w' => seekRecovery (store w') !! instanceId = Some t)
          (handleSeekEnd instanceId w).
Proof.
  intros Hitem Hlocal. unfold handleSeekEnd, Math_round, bind, get_world. simpl.
  rewrite Hitem, Hlocal. simpl. intros [v|]; simpl; [| apply lookup_insert_eq].
  rewrite lookup_alter_eq, Hitem. simpl.
  destruct (default false (wasPlayingBeforeSeek w !! instanceId)); simpl;
    [| apply lookup_insert_eq].
  destruct (AudioProgress.is_paused item); simpl; [| apply lookup_insert_eq].
  intros [b|]; simpl.
  - rewrite lookup_alter_eq, Hitem. simpl. apply lookup_insert_eq.
  - apply lookup_insert_eq.
Qed.

Lemma observe_armed (e : Event) (s : Store) (instanceId t : Z) :
  seekRecovery s !! instanceId = Some t ->
  match e with
  | Snapshot _ payload =>
      AudioProgress.instance_id payload = instanceId
      /\ is_Some (progress_gate payload s)
  | Frame _ => False
  end
  \/ seekRecovery (observe e s) !! instanceId = Some t.
Proof.
  intros Ht. destruct e as [now payload | now]; simpl; [| by right].
  unfold listen_audio_progress.
  destruct (progress_gate payload s) as [s1|] eqn:Hgate; [| by right].
  destruct (decide (AudioProgress.instance_id payload = instanceId)) as [Heq|Hne];
    [left; eauto |].
  right. rewrite progress_apply_seekRecovery.
  unfold progress_gate in Hgate. case_bool_decide; [done|].
  destruct (seekRecovery s !! AudioProgress.instance_id payload) as [t'|].
  - destruct (_ >=? _); [| done]. injection Hgate as <-. simpl.
    by rewrite lookup_delete_ne.
  - by injection Hgate as <-.
Qed.

Lemma armed_first_accepted (events : list Event) (s : Store) (instanceId t : Z)
    (p : AudioProgress.t) :
  seekRecovery s !! instanceId = Some t ->
  head (accepted_for instanceId events s) = Some p ->
  t - 100 <= AudioProgress.position_ms p.
Proof.
  revert s. unfold accepted_for.
  induction events as [|e events IH]; intros s Ht; simpl; [done|].
  destruct (observe_armed e s instanceId t Ht) as [Hmine | Hstill].
  - destruct e as [now payload | now]; [| done]. destruct Hmine as [Hid Hgate].
    rewrite bool_decide_eq_true_2 by done. simpl.
    rewrite bool_decide_eq_true_2 by done. simpl. intros [= <-].
    destruct Hgate as [s1 Hgate]. unfold progress_gate in Hgate.
    case_bool_decide; [done|]. rewrite Hid, Ht in Hgate.
    destruct (Z.geb_spec (AudioProgress.position_ms payload) (t - 100)); [lia | done].
  - destruct e as [now payload | now]; [| by apply IH].
    case_bool_decide as Hgate; [| by apply IH]. simpl.
    case_bool_decide as Hid; [| by apply IH]. simpl. intros [= <-].
    destruct Hgate as [s1 Hgate]. unfold progress_gate in Hgate.
    case_bool_decide; [done|]. rewrite Hid, Ht in Hgate.
    destruct (Z.geb_spec (AudioProgress.position_ms payload) (t - 100)); [lia | done].
Qed.

(** C2, as amended. For every seek to a target [t] that ends a drag on an
    active instance, however the engine answers, and whatever snapshots and
    animation frames follow in whatever order: the first snapshot accepted
    afterwards for that instance has a position of at least [t - 100]. *)
Theorem C2_first_accepted (w : World) (instanceId t : Z) (item : AudioProgress.t)
    (env : Command -> Response) (events : list Event) (p : AudioProgress.t) :
  activeProgresses (store w) !! instanceId = Some item ->
  localSeekValue w = Some t ->
  head (accepted_for instanceId events
          (store (final (run env (handleSeekEnd instanceId w))))) = Some p ->
  t - 100 <= AudioProgress.position_ms p.
Proof.
  intros Hitem Hlocal. apply armed_first_accepted.
  apply (ends_in_run (fun w' => seekRecovery (store w') !! instanceId = Some t)).
  by apply (handleSeekEnd_armed w instanceId t item).
Qed.

(** After the seek of [world_dragging] to 5000: a snapshot at 5000 arrives,
    then a snapshot taken before the seek (position 1200), then a frame. *)
Lemma C2_counterexample :
  let late := [Snapshot 12100 (boom 5000 false 0); Snapshot 12200 (boom 1200 false 0);
               Frame 12210] in
  accepted_for 1 late (store world_after_seek)
  = [boom 5000 false 0; boom 1200 false 0]
  /\ AudioProgress.position_ms (boom 1200 false 0) < 5000 - 100
  /\ displayed 1 world_after_seek = Some 5000
  /\ displayed 1 (after late world_after_seek) = Some 1210
  /\ displayed 1 (after [Frame 12000] world_after_seek) = Some 3000.
Proof. vm_compute. repeat split; discriminate. Qed.

Lemma C2_witness :
  head (accepted_for 1
          [Frame 12000; Snapshot 12050 (boom 3050 false 0);
           Snapshot 12150 (boom 4950 false 0); Snapshot 12250 (boom 1200 false 0)]
          (store world_after_seek))
  = Some (boom 4950 false 0)
  /\ 5000 - 100 <= 4950.
Proof.
  split; [reflexivity|].
  exact (C2_first_accepted world_dragging 1 5000 (boom 1000 true 10000)
           (engine_ok false)
           [Frame 12000; Snapshot 12050 (boom 3050 false 0);
            Snapshot 12150 (boom 4950 false 0); Snapshot 12250 (boom 1200 false 0)]
           (boom 4950 false 0) eq_refl eq_refl eq_refl).
Defined.

(** * Further properties of the store and of the seek handlers *)

(** ** More on tasks *)

Lemma throughout_ends_in {A : Type} (P : World -> Prop) (t : Task A) :
  throughout P t -> ends_in P t.
Proof.
  induction t as [a w | w | c w k IH]; simpl; [done | done |].
  intros [_ H] r. apply IH, H.
Qed.

Lemma throughout_weaken {A : Type} (P Q : World -> Prop) (t : Task A) :
  (forall w, P w -> Q w) -> throughout P t -> throughout Q t.
Proof.
  intros HPQ. induction t as [a w | w | c w k IH]; simpl; [auto | auto |].
  intros [Hw Hk]. split; [auto|]. intros r. apply IH, Hk.
Qed.

Lemma throughout_bind {A B : Type} (P : World -> Prop) (t : Task A)
    (f : A -> World -> Task B) :
  throughout P t ->
  (forall a w, P w -> throughout P (f a w)) ->
  throughout P (task_bind t f).
Proof.
  intros Ht Hf. induction t as [a w | w | c w k IH]; simpl in *; [auto | auto |].
  destruct Ht as [Hw Hk]. split; [done|]. intros r. apply IH, Hk.
Qed.

Lemma throughout_catch {A : Type} (P : World -> Prop) (t : Task A)
    (h : World -> Task A) :
  throughout P t ->
  (forall w, P w -> throughout P (h w)) ->
  throughout P (task_catch t h).
Proof.
  intros Ht Hh. induction t as [a w | w | c w k IH]; simpl in *; [auto | auto |].
  destruct Ht as [Hw Hk]. split; [done|]. intros r. apply IH, Hk.
Qed.

Lemma never_raises_run {A : Type} (t : Task A) (env : Command -> Response) :
  never_raises t -> exists a w, run env t = Completed a w.
Proof.
  induction t as [a w | w | c w k IH]; simpl; [eauto | done | auto].
Qed.

Lemma never_raises_catch {A : Type} (t : Task A) (h : World -> Task A) :
  (forall w, never_raises (h w)) -> never_raises (task_catch t h).
Proof.
  intros Hh. induction t as [a w | w | c w k IH]; simpl; auto.
Qed.

(** Walks through a task whose awaits are all visible after unfolding. *)
Ltac walk :=
  repeat (simpl;
          match goal with
          | |- _ /\ _ => split
          | |- forall r : Response, _ => let v := fresh "v" in intros [v|]
          end).

(** [saveSettings] exposes and leaves the store it was started with. *)
Lemma saveSettings_keeps_store (w : World) :
  throughout (fun w' => store w' = store w /\ localSeekValue w' = localSeekValue w
                        /\ wasPlayingBeforeSeek w' = wasPlayingBeforeSeek w)
             (saveSettings w).
Proof.
  unfold saveSettings, try_catch, store_set_entry, bind, await, get_store, modify_world, ret.
  walk; done.
Qed.

(** ** The instance counters never go negative *)

Lemma Forall_update_found {A : Type} (P : A -> Prop) (f : A -> bool) (g : A -> A)
    (l : list A) :
  (forall x, f x = true -> P x -> P (g x)) ->
  Forall P l -> Forall P (update_found f g l).
Proof.
  intros Hg. induction 1 as [|x l Hx Hl IH]; simpl; [done|].
  destruct (f x) eqn:Hf; constructor; auto.
Qed.

Lemma listen_audio_progress_counters (now : Z) (payload : AudioProgress.t) (s : Store) :
  List.map SoundButton.activeInstances (buttons (listen_audio_progress now payload s))
  = List.map SoundButton.activeInstances (buttons s).
Proof.
  assert (forall s0, List.map SoundButton.activeInstances
                       (buttons (progress_apply now payload s0))
                     = List.map SoundButton.activeInstances (buttons s0)) as Happly.
  { intros s0. unfold progress_apply. simpl.
    rewrite map_update_found by done.
    destruct (activeProgresses s0 !! AudioProgress.instance_id payload); simpl; [|done].
    destruct (AudioProgress.is_paused payload); simpl; [|done].
    match goal with |- context [if ?c then _ else _] => destruct c end; done. }
  unfold listen_audio_progress, progress_gate.
  case_bool_decide; [done|].
  destruct (seekRecovery s !! AudioProgress.instance_id payload).
  - destruct (_ >=? _); [| done]. by rewrite Happly.
  - by rewrite Happly.
Qed.

Lemma counters_nonneg_map (w w' : World) :
  List.map SoundButton.activeInstances (buttons (store w'))
  = List.map SoundButton.activeInstances (buttons (store w)) ->
  counters_nonneg w -> counters_nonneg w'.
Proof.
  unfold counters_nonneg. intros Hmap Hw.
  apply (Forall_fmap SoundButton.activeInstances (fun n : Z => 0 <= n)).
  apply (Forall_fmap SoundButton.activeInstances (fun n : Z => 0 <= n)) in Hw.
  change (Forall (fun n : Z => 0 <= n)
            (List.map SoundButton.activeInstances (buttons (store w')))).
  by rewrite Hmap.
Qed.

Lemma decrement_if_positive_nonneg (b : SoundButton.t) :
  0 <= SoundButton.activeInstances b ->
  0 <= SoundButton.activeInstances (decrement_if_positive b).
Proof.
  unfold decrement_if_positive.
  destruct (Z.ltb_spec 0 (SoundButton.activeInstances b)); simpl; lia.
Qed.

Lemma listen_audio_finished_nonneg (instanceId : Z) (w : World) :
  counters_nonneg w ->
  counters_nonneg (set_store (listen_audio_finished instanceId (store w)) w).
Proof.
  unfold counters_nonneg, listen_audio_finished. simpl. intros Hw.
  destruct (activeProgresses (store w) !! instanceId); simpl; [| done].
  apply Forall_update_found; [| done]. intros b _. apply decrement_if_positive_nonneg.
Qed.

Lemma playSound_nonneg (buttonId : Z) (w : World) :
  counters_nonneg w -> throughout counters_nonneg (playSound buttonId w).
Proof.
  intros Hw. unfold playSound, bind, get_store. simpl.
  destruct (find (id_eq buttonId) (buttons (store w))) as [button|]; simpl; [| done].
  destruct (path_missing button); simpl; [done|].
  assert (counters_nonneg
            (set_store
               (set_buttons
                  (update_found (id_eq buttonId)
                     (fun b => SoundButton.set_isPaused false
                                 (SoundButton.set_activeInstances
                                    (SoundButton.activeInstances b + 1) b))
                     (buttons (store w))) (store w)) w)) as Hinc.
  { unfold counters_nonneg. simpl. apply Forall_update_found; [| done].
    intros b _ Hb. simpl. lia. }
  split; [done|]. intros [v|]; simpl; [done|].
  unfold counters_nonneg. simpl. rewrite update_found_twice by done.
  apply Forall_update_found; [| done]. intros b _ Hb. simpl. lia.
Qed.

Lemma keeps_buttons_nonneg {A : Type} (w : World) (t : Task A) :
  counters_nonneg w ->
  throughout (fun w' => buttons (store w') = buttons (store w)) t ->
  throughout counters_nonneg t.
Proof.
  intros Hw. apply throughout_weaken. intros w' Hb.
  unfold counters_nonneg. by rewrite Hb.
Qed.

Lemma saveSettings_keeps_buttons (w : World) :
  throughout (fun w' => buttons (store w') = buttons (store w)) (saveSettings w).
Proof.
  eapply throughout_weaken; [| apply saveSettings_keeps_store].
  by intros w' (-> & _).
Qed.

Lemma setOutputDevice_keeps_buttons (deviceName : string) (w : World) :
  throughout (fun w' => buttons (store w') = buttons (store w))
             (setOutputDevice deviceName w).
Proof.
  unfold setOutputDevice, try_catch, bind, await, modify_store. cbn -[saveSettings].
  split; [done|]. intros [v|]; cbn -[saveSettings]; [| done].
  apply throughout_catch; [| done].
  apply (saveSettings_keeps_buttons (set_store (set_currentDevice deviceName (store w)) w)).
Qed.

Lemma setMasterVolume_keeps_buttons (volume : Q) (w : World) :
  throughout (fun w' => buttons (store w') = buttons (store w))
             (setMasterVolume volume w).
Proof.
  unfold setMasterVolume, try_catch, bind, await, modify_store. cbn -[saveSettings].
  split; [done|]. intros [v|]; cbn -[saveSettings]; [| done].
  apply throughout_catch; [| done].
  apply (saveSettings_keeps_buttons (set_store (set_masterVolume volume (store w)) w)).
Qed.

Lemma togglePauseInstance_keeps_buttons (instanceId : Z) (w : World) :
  throughout (fun w' => buttons (store w') = buttons (store w))
             (togglePauseInstance instanceId w).
Proof.
  unfold togglePauseInstance, try_catch, bind, await, modify_store. simpl.
  split; [done|]. intros [v|]; simpl; [| done].
  by destruct (activeProgresses (store w) !! instanceId).
Qed.

Lemma handleSeekStart_keeps_buttons (instanceId : Z) (w : World) :
  throughout (fun w' => buttons (store w') = buttons (store w))
             (handleSeekStart instanceId w).
Proof.
  unfold handleSeekStart, bind, get_store. simpl.
  destruct (activeProgresses (store w) !! instanceId) as [item|] eqn:Hitem;
    simpl; [| done].
  destruct (AudioProgress.is_paused item); simpl; [done|].
  split; [done|]. intros [v|]; simpl; [| done]. by rewrite Hitem.
Qed.

Lemma handleSeekEnd_keeps_buttons (instanceId : Z) (w : World) :
  throughout (fun w' => buttons (store w') = buttons (store w))
             (handleSeekEnd instanceId w).
Proof.
  unfold handleSeekEnd, Math_round, bind, get_world. simpl.
  destruct (activeProgresses (store w) !! instanceId) as [item|] eqn:Hitem; simpl.
  - destruct (localSeekValue w) as [t|] eqn:Hlocal; simpl.
    + split; [done|]. intros [v|]; simpl; [| done].
      rewrite lookup_alter_eq, Hitem. simpl.
      destruct (default false (wasPlayingBeforeSeek w !! instanceId)); simpl; [| done].
      destruct (AudioProgress.is_paused item); simpl; [| done].
      split; [done|]. intros [b|]; simpl; [| done].
      by rewrite lookup_alter_eq, Hitem.
    + rewrite Hitem. simpl.
      destruct (default false (wasPlayingBeforeSeek w !! instanceId)); simpl; [| done].
      destruct (AudioProgress.is_paused item); simpl; [| done].
      split; [done|]. intros [b|]; simpl; [| done]. by rewrite Hitem.
  - rewrite Hitem. simpl. by rewrite andb_false_r.
Qed.

Lemma react_counters_nonneg (i : Input) (w : World) :
  counters_nonneg w -> throughout counters_nonneg (react i w).
Proof.
  intros Hw. destruct i; unfold react.
  - done.
  - unfold modify_store. simpl. eapply counters_nonneg_map; [| exact Hw]. simpl.
    apply listen_audio_progress_counters.
  - by apply listen_audio_finished_nonneg.
  - done.
  - by apply (keeps_buttons_nonneg w), setOutputDevice_keeps_buttons.
  - by apply (keeps_buttons_nonneg w), setMasterVolume_keeps_buttons.
  - by apply playSound_nonneg.
  - by apply (keeps_buttons_nonneg w), togglePauseInstance_keeps_buttons.
  - unfold stopInstance, try_catch, bind, await, modify_store. simpl.
    split; [done|]. intros [v|]; simpl; [| done].
    pose proof (listen_audio_finished_nonneg instanceId w Hw) as H.
    unfold listen_audio_finished in H.
    by destruct (activeProgresses (store w) !! instanceId).
  - unfold stopAll, try_catch, bind, await, modify_store. simpl.
    split; [done|]. intros [v|]; simpl; [| done].
    unfold counters_nonneg. simpl. apply Forall_forall. intros b Hb.
    apply list_elem_of_In, in_map_iff in Hb. by destruct Hb as (b0 & <- & _).
  - by apply (keeps_buttons_nonneg w), saveSettings_keeps_buttons.
  - by apply (keeps_buttons_nonneg w), handleSeekStart_keeps_buttons.
  - unfold modify_world, handleSeek. simpl.
    destruct v as [|v0 v]; [done|]. by case_bool_decide.
  - by apply (keeps_buttons_nonneg w), handleSeekEnd_keeps_buttons.
Qed.

Lemma react_all_counters_nonneg (inputs : list (Input * (Command -> Response)))
    (w : World) :
  counters_nonneg w -> counters_nonneg (react_all inputs w).
Proof.
  revert w. induction inputs as [|[i env] inputs IH]; intros w Hw; simpl; [done|].
  apply IH. apply (ends_in_run counters_nonneg), throughout_ends_in.
  by apply react_counters_nonneg.
Qed.

(** X1. When every input is handled to its end before the next one is taken,
    as [react_all] takes them: from a world in which no button has a negative
    [activeInstances], whatever the inputs are - the engine's events,
    animation frames, the actions of the store and the seek handlers listed
    in [Input] - and however the awaited commands settle, no counter is
    negative afterwards, nor in any world that the next handler exposes at an
    await or leaves. An action overtaken by another one while it awaits is
    not covered. *)
Theorem X1_counters_never_negative (inputs : list (Input * (Command -> Response)))
    (w : World) (i : Input) :
  counters_nonneg w ->
  counters_nonneg (react_all inputs w)
  /\ throughout counters_nonneg (react i (react_all inputs w)).
Proof.
  intros Hw. pose proof (react_all_counters_nonneg inputs w Hw) as H.
  split; [done|]. by apply react_counters_nonneg.
Qed.

Lemma X1_witness :
  counters_nonneg
    (react_all [(call_playSound 3, engine_down); (on_audio_finished 1, engine_down);
                (on_audio_finished 1, engine_down); (call_stopInstance 1, engine_ok false)]
               world0).
Proof.
  apply (X1_counters_never_negative _ world0 call_stopAll).
  unfold counters_nonneg. simpl. repeat constructor; discriminate.
Defined.

(** ** The drag flag is never set without a slider value *)

Lemma keeps_drag_has_value {A : Type} (w : World) (t : Task A) :
  drag_has_value w ->
  throughout (fun w' => seekingInstanceId (store w') = seekingInstanceId (store w)
                        /\ localSeekValue w' = localSeekValue w) t ->
  throughout drag_has_value t.
Proof.
  intros Hw. apply throughout_weaken. intros w' [H1 H2].
  unfold drag_has_value. by rewrite H1, H2.
Qed.

Lemma saveSettings_keeps_drag (w : World) :
  throughout (fun w' => seekingInstanceId (store w') = seekingInstanceId (store w)
                        /\ localSeekValue w' = localSeekValue w)
             (saveSettings w).
Proof.
  eapply throughout_weaken; [| apply saveSettings_keeps_store].
  by intros w' (-> & -> & _).
Qed.

Lemma react_drag_has_value (i : Input) (w : World) :
  drag_has_value w -> throughout drag_has_value (react i w).
Proof.
  intros Hw. destruct i; unfold react.
  - done.
  - unfold modify_store, drag_has_value. simpl.
    pose proof (observe_seekingInstanceId (Snapshot now payload) (store w)) as H.
    simpl in H. by rewrite H.
  - unfold modify_store, drag_has_value, listen_audio_finished. simpl.
    by destruct (activeProgresses (store w) !! instanceId).
  - done.
  - apply (keeps_drag_has_value w); [done|].
    unfold setOutputDevice, try_catch, bind, await, modify_store. cbn -[saveSettings].
    split; [done|]. intros [v|]; cbn -[saveSettings]; [| done].
    apply throughout_catch; [| done].
    apply (saveSettings_keeps_drag (set_store (set_currentDevice deviceName (store w)) w)).
  - apply (keeps_drag_has_value w); [done|].
    unfold setMasterVolume, try_catch, bind, await, modify_store. cbn -[saveSettings].
    split; [done|]. intros [v|]; cbn -[saveSettings]; [| done].
    apply throughout_catch; [| done].
    apply (saveSettings_keeps_drag (set_store (set_masterVolume volume (store w)) w)).
  - apply (keeps_drag_has_value w); [done|].
    unfold playSound, bind, get_store. simpl.
    destruct (find (id_eq buttonId) (buttons (store w))) as [button|]; simpl; [| done].
    destruct (path_missing button); simpl; [done|].
    split; [done|]. by intros [v|].
  - by apply togglePauseInstance_drag_has_value.
  - apply (keeps_drag_has_value w); [done|].
    unfold stopInstance, try_catch, bind, await, modify_store. simpl.
    split; [done|]. intros [v|]; simpl; [| done].
    by destruct (activeProgresses (store w) !! instanceId).
  - apply (keeps_drag_has_value w); [done|].
    unfold stopAll, try_catch, bind, await, modify_store. simpl.
    split; [done|]. by intros [v|].
  - by apply (keeps_drag_has_value w), saveSettings_keeps_drag.
  - by apply handleSeekStart_drag_has_value.
  - by apply handleSeek_drag_has_value.
  - by apply handleSeekEnd_drag_has_value.
Qed.

Lemma react_all_drag_has_value (inputs : list (Input * (Command -> Response)))
    (w : World) :
  drag_has_value w -> drag_has_value (react_all inputs w).
Proof.
  revert w. induction inputs as [|[i env] inputs IH]; intros w Hw; simpl; [done|].
  apply IH. apply (ends_in_run drag_has_value), throughout_ends_in.
  by apply react_drag_has_value.
Qed.

(** X2. From a world in which the drag flag [seekingInstanceId] is not set
    without a slider value [localSeekValue], whatever inputs are handled and
    however the commands settle, the flag is never set without a value: a
    slider that is being dragged always has a local value to show, also in
    the worlds a handler exposes while it awaits the engine. *)
Theorem X2_drag_always_has_value (inputs : list (Input * (Command -> Response)))
    (w : World) (i : Input) :
  drag_has_value w ->
  (forall instanceId,
      seekingInstanceId (store (react_all inputs w)) = Some instanceId ->
      exists v, dragging instanceId v (react_all inputs w))
  /\ throughout drag_has_value (react i (react_all inputs w)).
Proof.
  intros Hw. pose proof (react_all_drag_has_value inputs w Hw) as H. split.
  - intros instanceId Hseek. by apply drag_has_value_dragging.
  - by apply react_drag_has_value.
Qed.

Lemma X2_witness :
  exists v,
    dragging 1 v
      (react_all [(call_handleSeekStart 1, engine_ok true);
                  (on_audio_progress 10100 (boom 1100 true 0), engine_down);
                  (call_handleSeek 1 [2500; 0], engine_down)] world0).
Proof.
  apply (X2_drag_always_has_value _ world0 call_stopAll); [| reflexivity].
  intros [x Hx]. discriminate.
Defined.

(** ** Natural completion *)

Lemma decrement_keeps_ids (key : string) (l : list SoundButton.t) :
  forall l', l' = update_found (id_is key) decrement_if_positive l ->
  List.map SoundButton.id l' = List.map SoundButton.id l.
Proof.
  intros l' ->. apply map_update_found. intros b. unfold decrement_if_positive.
  by destruct (0 <? _).
Qed.

Lemma listen_audio_finished_present (instanceId : Z) (s : Store)
    (progress : AudioProgress.t) :
  activeProgresses s !! instanceId = Some progress ->
  listen_audio_finished instanceId s
  = set_activeProgresses (delete instanceId (activeProgresses s))
      (set_buttons
         (update_found (id_is (AudioProgress.id progress)) decrement_if_positive
            (buttons s)) s).
Proof. intros H. unfold listen_audio_finished. by rewrite H. Qed.

(** X3. An ["audio-finished"] event for an instance that is not in the table
    changes nothing. For one that is, it removes that entry and no other,
    leaves the recovery targets, the drag flag and every button's identity
    alone, and a second delivery of the same event changes nothing more: a
    counter is never decremented twice for one instance. *)
Theorem X3_finished_once (instanceId : Z) (s : Store) :
  let s' := listen_audio_finished instanceId s in
  (activeProgresses s !! instanceId = None -> s' = s)
  /\ activeProgresses s' = delete instanceId (activeProgresses s)
  /\ seekRecovery s' = seekRecovery s
  /\ seekingInstanceId s' = seekingInstanceId s
  /\ List.map SoundButton.id (buttons s') = List.map SoundButton.id (buttons s)
  /\ listen_audio_finished instanceId s' = s'.
Proof.
  intros s'. subst s'.
  destruct (activeProgresses s !! instanceId) as [progress|] eqn:Hp.
  - rewrite (listen_audio_finished_present _ _ _ Hp). simpl.
    split; [done|]. split; [done|]. split; [done|]. split; [done|]. split.
    + by apply (decrement_keeps_ids (AudioProgress.id progress)).
    + apply listen_audio_finished_absent. simpl. apply lookup_delete_eq.
  - rewrite (listen_audio_finished_absent _ _ Hp).
    split; [done|]. split; [by rewrite delete_id|].
    repeat (split; [done|]). by apply listen_audio_finished_absent.
Qed.

(** ** Animation frames *)

Lemma loop_entry_fields (seeking : option Z) (now instanceId : Z) (p : AudioProgress.t) :
  let p' := loop_entry seeking now instanceId p in
  AudioProgress.id p' = AudioProgress.id p
  /\ AudioProgress.instance_id p' = AudioProgress.instance_id p
  /\ AudioProgress.name p' = AudioProgress.name p
  /\ AudioProgress.duration_ms p' = AudioProgress.duration_ms p
  /\ AudioProgress.is_paused p' = AudioProgress.is_paused p
  /\ AudioProgress.last_sync_time p' = AudioProgress.last_sync_time p
  /\ AudioProgress.last_sync_pos p' = AudioProgress.last_sync_pos p.
Proof.
  intros p'. subst p'. unfold loop_entry. case_bool_decide; [done|].
  destruct (AudioProgress.is_paused p) eqn:Hp; simpl; repeat split; done.
Qed.

Lemma loop_entry_again (seeking : option Z) (now now' instanceId : Z)
    (p : AudioProgress.t) :
  loop_entry seeking now' instanceId (loop_entry seeking now instanceId p)
  = loop_entry seeking now' instanceId p.
Proof.
  unfold loop_entry. case_bool_decide; [done|].
  destruct (AudioProgress.is_paused p) eqn:Hp; simpl; by rewrite ?Hp.
Qed.

Lemma loop_entry_monotone (seeking : option Z) (now now' instanceId : Z)
    (p : AudioProgress.t) :
  now <= now' ->
  AudioProgress.position_ms (loop_entry seeking now instanceId p)
  <= AudioProgress.position_ms (loop_entry seeking now' instanceId p).
Proof.
  intros Hle. unfold loop_entry. case_bool_decide; [done|].
  destruct (AudioProgress.is_paused p); simpl; lia.
Qed.

(** X4. Animation frames do not accumulate: a frame at [now'] drawn after a
    frame at [now] leaves the store that the frame at [now'] alone would have
    left, so what is shown depends on the last snapshot and the clock only.
    A frame changes nothing in the store but the [position_ms] of entries:
    the table has the same keys, each entry is the entry it was up to its
    position, and every other field of the store is what it was. From one
    frame to a later one no position moves backwards. *)
Theorem X4_frames (now now' : Z) (s : Store) :
  loop now' (loop now s) = loop now' s
  /\ set_activeProgresses (activeProgresses s) (loop now s) = s
  /\ dom (activeProgresses (loop now s)) = dom (activeProgresses s)
  /\ (forall instanceId p,
        activeProgresses s !! instanceId = Some p ->
        exists p',
          activeProgresses (loop now s) !! instanceId = Some p'
          /\ AudioProgress.set_position_ms (AudioProgress.position_ms p) p' = p)
  /\ (now <= now' ->
      forall instanceId p p',
        activeProgresses (loop now s) !! instanceId = Some p ->
        activeProgresses (loop now' (loop now s)) !! instanceId = Some p' ->
        AudioProgress.position_ms p <= AudioProgress.position_ms p'
        /\ AudioProgress.set_position_ms (AudioProgress.position_ms p) p' = p).
Proof.
  assert (loop now' (loop now s) = loop now' s) as Hagain.
  { unfold loop, set_activeProgresses. simpl. f_equal.
    apply map_eq. intros i. rewrite !map_lookup_imap.
    destruct (activeProgresses s !! i) as [p|]; simpl; [| done].
    by rewrite loop_entry_again. }
  assert (forall seeking t i p,
            AudioProgress.set_position_ms (AudioProgress.position_ms p)
              (loop_entry seeking t i p) = p) as Hsame.
  { intros seeking t i p. unfold loop_entry. case_bool_decide; [by destruct p|].
    destruct (AudioProgress.is_paused p); by destruct p. }
  split; [done|]. split; [by destruct s|]. split; [| split].
  - apply set_eq. intros i. rewrite !elem_of_dom, loop_lookup.
    by rewrite fmap_is_Some.
  - intros instanceId p Hp. rewrite loop_lookup, Hp. simpl.
    eexists. split; [reflexivity|]. apply Hsame.
  - intros Hle instanceId p p'. rewrite Hagain, !loop_lookup.
    destruct (activeProgresses s !! instanceId) as [p0|]; simpl; [| done].
    intros [= <-] [= <-]. split; [by apply loop_entry_monotone|].
    unfold loop_entry. case_bool_decide; [by destruct p0|].
    destruct (AudioProgress.is_paused p0); by destruct p0.
Qed.

Lemma X4_witness :
  exists p p',
    activeProgresses (loop 10250 store0) !! 1 = Some p
    /\ activeProgresses (loop 10500 (loop 10250 store0)) !! 1 = Some p'
    /\ AudioProgress.set_position_ms 1000 p = boom 1000 false 10000
    /\ AudioProgress.position_ms p = 1250
    /\ AudioProgress.position_ms p' = 1500
    /\ AudioProgress.position_ms p <= AudioProgress.position_ms p'.
Proof.
  destruct (X4_frames 10250 10500 store0) as (_ & _ & _ & Hentry & H).
  destruct (Hentry 1 (boom 1000 false 10000) eq_refl) as (p & Hp & Hsame).
  exists p. eexists. split; [exact Hp|]. split; [reflexivity|].
  split; [exact Hsame|].
  injection Hp as <-.
  split; [reflexivity|]. split; [reflexivity|].
  refine (proj1 (H _ 1 _ _ eq_refl eq_refl)). discriminate.
Defined.

(** ** More on snapshots *)

Lemma progress_gate_Some (payload : AudioProgress.t) (s s1 : Store) :
  progress_gate payload s = Some s1 ->
  seekingInstanceId s <> Some (AudioProgress.instance_id payload)
  /\ buttons s1 = buttons s
  /\ activeProgresses s1 = activeProgresses s
  /\ seekingInstanceId s1 = seekingInstanceId s
  /\ masterLevels s1 = masterLevels s
  /\ (forall i, i <> AudioProgress.instance_id payload ->
                seekRecovery s1 !! i = seekRecovery s !! i).
Proof.
  unfold progress_gate. case_bool_decide as Hs; [done|].
  destruct (seekRecovery s !! AudioProgress.instance_id payload) as [t|].
  - destruct (_ >=? _); [| done]. intros [= <-]. simpl.
    repeat (split; [done|]). intros i Hi. by rewrite lookup_delete_ne.
  - intros [= <-]. done.
Qed.

Lemma progress_apply_seekingInstanceId (now : Z) (payload : AudioProgress.t) (s : Store) :
  seekingInstanceId (progress_apply now payload s) = seekingInstanceId s.
Proof.
  unfold progress_apply.
  destruct (activeProgresses s !! AudioProgress.instance_id payload); simpl; [|done].
  destruct (AudioProgress.is_paused payload); simpl; [|done].
  match goal with |- context [if ?c then _ else _] => destruct c end; done.
Qed.

Lemma progress_apply_position (now : Z) (payload : AudioProgress.t) (s : Store) :
  exists p,
    activeProgresses (progress_apply now payload s) !! AudioProgress.instance_id payload
    = Some p
    /\ AudioProgress.last_sync_pos p = AudioProgress.position_ms payload
    /\ AudioProgress.last_sync_time p = now
    /\ AudioProgress.is_paused p = AudioProgress.is_paused payload
    /\ AudioProgress.duration_ms p = AudioProgress.duration_ms payload
    /\ (AudioProgress.is_paused payload = true
        \/ activeProgresses s !! AudioProgress.instance_id payload = None ->
        AudioProgress.position_ms p = AudioProgress.position_ms payload)
    /\ (forall existing,
          AudioProgress.is_paused payload = false ->
          activeProgresses s !! AudioProgress.instance_id payload = Some existing ->
          AudioProgress.position_ms p = AudioProgress.position_ms existing).
Proof.
  unfold progress_apply.
  destruct (activeProgresses s !! AudioProgress.instance_id payload) as [existing|];
    simpl.
  - destruct (AudioProgress.is_paused payload) eqn:Hp; simpl.
    + match goal with |- context [if ?c then _ else _] => destruct c end; simpl;
        rewrite lookup_insert_eq; (eexists; split; [reflexivity|]); simpl;
        repeat split; try done.
    + rewrite lookup_insert_eq. eexists. split; [reflexivity|]. simpl.
      repeat split; try done.
      * by intros [|].
      * by intros ? _ [= <-].
  - rewrite lookup_insert_eq. eexists. split; [reflexivity|]. simpl.
    repeat split; done.
Qed.

(** X5. Once a snapshot has been accepted, a frame drawn [d] milliseconds
    after it shows, for that instance, the snapshot's position if the
    snapshot says paused, and otherwise the snapshot's position plus [d],
    clamped to the snapshot's duration. *)
Theorem X5_snapshot_then_frame (now d : Z) (payload : AudioProgress.t) (s : Store) :
  is_Some (progress_gate payload s) ->
  exists p,
    activeProgresses (loop (now + d) (listen_audio_progress now payload s))
      !! AudioProgress.instance_id payload = Some p
    /\ AudioProgress.position_ms p
       = (if AudioProgress.is_paused payload
          then AudioProgress.position_ms payload
          else Z.min (AudioProgress.duration_ms payload)
                     (AudioProgress.position_ms payload + d)).
Proof.
  intros [s1 Hgate]. unfold listen_audio_progress. rewrite Hgate.
  destruct (progress_gate_Some _ _ _ Hgate) as (Hseek & _ & _ & Hseek1 & _).
  destruct (progress_apply_position now payload s1)
    as (p & Hp & Hpos & Htime & Hpaused & Hdur & Hposition & _).
  rewrite loop_lookup, Hp, progress_apply_seekingInstanceId, Hseek1.
  simpl. eexists. split; [done|].
  unfold loop_entry. rewrite bool_decide_eq_false_2 by done. rewrite Hpaused.
  destruct (AudioProgress.is_paused payload); simpl.
  - apply Hposition. by left.
  - rewrite Hdur, Hpos, Htime. f_equal. lia.
Qed.

Lemma X5_witness :
  exists p,
    activeProgresses (loop (10200 + 50) (listen_audio_progress 10200 (boom 1200 false 0) store0))
      !! 1 = Some p
    /\ AudioProgress.position_ms p = 1250.
Proof.
  apply (X5_snapshot_then_frame 10200 50 (boom 1200 false 0) store0).
  by eexists.
Defined.

Lemma progress_apply_other (now : Z) (payload : AudioProgress.t) (s : Store) (i : Z) :
  i <> AudioProgress.instance_id payload ->
  activeProgresses (progress_apply now payload s) !! i = activeProgresses s !! i.
Proof.
  intros Hi. unfold progress_apply.
  destruct (activeProgresses s !! AudioProgress.instance_id payload); simpl.
  - destruct (AudioProgress.is_paused payload); simpl.
    + match goal with |- context [if ?c then _ else _] => destruct c end; simpl;
        by rewrite lookup_insert_ne.
    + by rewrite lookup_insert_ne.
  - by rewrite lookup_insert_ne.
Qed.

Lemma progress_apply_buttons (now : Z) (payload : AudioProgress.t) (s : Store) :
  buttons (progress_apply now payload s)
  = update_found (id_is (AudioProgress.id payload))
      (SoundButton.set_isPaused (AudioProgress.is_paused payload)) (buttons s).
Proof.
  unfold progress_apply. simpl.
  destruct (activeProgresses s !! AudioProgress.instance_id payload); simpl; [|done].
  destruct (AudioProgress.is_paused payload); simpl; [|done].
  match goal with |- context [if ?c then _ else _] => destruct c end; done.
Qed.

(** X6. A progress snapshot, accepted or not, touches nothing that belongs
    to another instance: the table entry and the recovery target of every
    other instance are what they were. It never changes the drag flag, and
    of the buttons it changes at most the [isPaused] flag. *)
Theorem X6_snapshot_is_local (now : Z) (payload : AudioProgress.t) (s : Store) :
  let s' := listen_audio_progress now payload s in
  (forall i, i <> AudioProgress.instance_id payload ->
             activeProgresses s' !! i = activeProgresses s !! i
             /\ seekRecovery s' !! i = seekRecovery s !! i)
  /\ seekingInstanceId s' = seekingInstanceId s
  /\ List.map (SoundButton.set_isPaused false) (buttons s')
     = List.map (SoundButton.set_isPaused false) (buttons s).
Proof.
  intros s'. subst s'. unfold listen_audio_progress.
  destruct (progress_gate payload s) as [s1|] eqn:Hgate; [| done].
  destruct (progress_gate_Some _ _ _ Hgate) as (_ & Hb & Ha & Hseek & _ & Hrec).
  split; [| split].
  - intros i Hi. rewrite progress_apply_other, Ha by done.
    rewrite progress_apply_seekRecovery. split; [done | by apply Hrec].
  - by rewrite progress_apply_seekingInstanceId.
  - rewrite progress_apply_buttons, Hb. generalize (buttons s).
    induction l as [|b l IH]; simpl; [done|].
    destruct (id_is _ b); simpl; [done | by rewrite IH].
Qed.

(** ** The level meter *)

Lemma every_is_paused_true (m : gmap Z AudioProgress.t) :
  every_is_paused m = true
  <-> forall i p, m !! i = Some p -> AudioProgress.is_paused p = true.
Proof.
  unfold every_is_paused. rewrite forallb_forall. split.
  - intros H i p Hp. apply H. apply list_elem_of_In.
    apply (list_elem_of_fmap_2 snd _ (i, p)). by apply elem_of_map_to_list.
  - intros H p Hp. apply list_elem_of_In, list_elem_of_fmap in Hp.
    destruct Hp as ([i p'] & -> & Hip). apply elem_of_map_to_list in Hip.
    by apply (H i).
Qed.

(** X7. A snapshot that reports a playing instance never touches the level
    meter. A snapshot accepted for an instance already in the table that
    reports it paused, when every other instance in the table is paused too,
    sets the meter to zero. *)
Theorem X7_meter_reset (now : Z) (payload : AudioProgress.t) (s : Store) :
  (AudioProgress.is_paused payload = false ->
     masterLevels (listen_audio_progress now payload s) = masterLevels s)
  /\ (is_Some (progress_gate payload s) ->
      is_Some (activeProgresses s !! AudioProgress.instance_id payload) ->
      AudioProgress.is_paused payload = true ->
      (forall i p, i <> AudioProgress.instance_id payload ->
                   activeProgresses s !! i = Some p ->
                   AudioProgress.is_paused p = true) ->
      masterLevels (listen_audio_progress now payload s) = mkLevels 0 0).
Proof.
  unfold listen_audio_progress. split.
  - intros Hp. destruct (progress_gate payload s) as [s1|] eqn:Hgate; [| done].
    destruct (progress_gate_Some _ _ _ Hgate) as (_ & _ & _ & _ & Hl & _).
    rewrite <- Hl. unfold progress_apply. rewrite Hp. simpl.
    by destruct (activeProgresses s1 !! AudioProgress.instance_id payload).
  - intros [s1 Hgate] [existing Hex] Hp Hothers. rewrite Hgate.
    destruct (progress_gate_Some _ _ _ Hgate) as (_ & _ & Ha & _ & _ & _).
    unfold progress_apply. rewrite Ha, Hex, Hp. simpl.
    match goal with |- context [if ?c then _ else _] => destruct c eqn:Hall end;
      [done|].
    exfalso. apply not_true_iff_false in Hall. apply Hall.
    apply every_is_paused_true. intros i p.
    destruct (decide (i = AudioProgress.instance_id payload)) as [->|Hi].
    + rewrite lookup_insert_eq. by intros [= <-].
    + rewrite lookup_insert_ne by done. by apply Hothers.
Qed.

Lemma X7_witness :
  masterLevels (listen_audio_progress 10200 (boom 1200 false 0)
                  (set_masterLevels (mkLevels (1 # 2) (1 # 4)) store0))
  = mkLevels (1 # 2) (1 # 4)
  /\ masterLevels (listen_audio_progress 10200 (boom 1200 true 0)
                     (set_masterLevels (mkLevels (1 # 2) (1 # 4)) store0))
     = mkLevels 0 0.
Proof.
  split.
  - by apply (X7_meter_reset 10200 (boom 1200 false 0)).
  - apply (X7_meter_reset 10200 (boom 1200 true 0)); [by eexists | by eexists | done |].
    intros i p Hi. simpl. by rewrite lookup_singleton_ne.
Defined.

Lemma X3_witness :
  listen_audio_finished 2 store0 = store0
  /\ activeProgresses (listen_audio_finished 1 store0) = ∅
  /\ listen_audio_finished 1 (listen_audio_finished 1 store0)
     = listen_audio_finished 1 store0.
Proof.
  destruct (X3_finished_once 2 store0) as (H1 & _).
  destruct (X3_finished_once 1 store0) as (_ & H2 & _ & _ & _ & H3).
  split; [by apply H1|]. split; [| exact H3].
  rewrite H2. reflexivity.
Defined.

Lemma X6_witness :
  activeProgresses (listen_audio_progress 10200 (boom 1200 false 0)
                      (set_activeProgresses
                         {[ 1 := boom 1000 false 10000; 2 := boom 700 true 9000 ]} store0))
    !! 2 = Some (boom 700 true 9000).
Proof.
  destruct (X6_snapshot_is_local 10200 (boom 1200 false 0)
              (set_activeProgresses
                 {[ 1 := boom 1000 false 10000; 2 := boom 700 true 9000 ]} store0))
    as (H & _).
  destruct (H 2) as [H2 _]; [discriminate|].
  rewrite H2. reflexivity.
Defined.

(** ** Rejections *)

Lemma saveSettings_never_raises (w : World) : never_raises (saveSettings w).
Proof.
  unfold saveSettings, try_catch. by apply never_raises_catch.
Qed.

(** X8. No action of the store, no event handler and neither
    [handleSeekStart] nor [handleSeek] ever lets a rejection escape: however
    the engine and the settings plugin answer, each of them completes. *)
Theorem X8_store_never_raises (i : Input) (w : World) (env : Command -> Response) :
  (forall instanceId, i <> call_handleSeekEnd instanceId) ->
  exists w', run env (react i w) = Completed tt w'.
Proof.
  intros Hi.
  assert (never_raises (react i w)) as Hnever.
  { destruct i; unfold react; try done.
    - unfold setOutputDevice, try_catch. by apply never_raises_catch.
    - unfold setMasterVolume, bind, modify_store. cbn [task_bind].
      unfold try_catch. by apply never_raises_catch.
    - unfold playSound, bind, get_store. simpl.
      destruct (find _ _) as [button|]; [| done].
      destruct (path_missing button); [done|].
      unfold try_catch. by apply never_raises_catch.
    - unfold togglePauseInstance, try_catch. by apply never_raises_catch.
    - unfold stopInstance, try_catch. by apply never_raises_catch.
    - unfold stopAll, try_catch. by apply never_raises_catch.
    - apply saveSettings_never_raises.
    - unfold handleSeekStart, bind, get_store. simpl.
      destruct (activeProgresses (store w) !! instanceId) as [item|] eqn:Hitem;
        simpl; [| done].
      destruct (AudioProgress.is_paused item); simpl; [done|].
      intros [v|]; simpl; done.
    - by destruct (Hi instanceId). }
  destruct (never_raises_run _ env Hnever) as ([] & w' & Hrun). eauto.
Qed.

Lemma X8_witness :
  exists w', run engine_down (react (call_playSound 3) world0) = Completed tt w'.
Proof.
  apply X8_store_never_raises. discriminate.
Defined.

(** ** How a seek gesture ends *)

(** X9. Whenever [handleSeekEnd] completes, the drag is over: the drag flag
    and the slider value are cleared and the instance has no entry left in
    [wasPlayingBeforeSeek]. It fails to complete only when it has a seek to
    send (the instance is in the table and the slider has a value [t]) and
    the engine rejects it; the world is then left with the target [t] armed
    and with the drag flag, the slider value and [wasPlayingBeforeSeek] as
    they were. *)
Theorem X9_seek_end_outcome (w : World) (instanceId : Z) (env : Command -> Response) :
  match run env (handleSeekEnd instanceId w) with
  | Completed _ w' =>
      seekingInstanceId (store w') = None
      /\ localSeekValue w' = None
      /\ wasPlayingBeforeSeek w' !! instanceId = None
  | Aborted w' =>
      exists t,
        localSeekValue w = Some t
        /\ is_Some (activeProgresses (store w) !! instanceId)
        /\ env (seek_instance instanceId (Math_round t)) = Rejected
        /\ w' = set_store
                  (set_seekRecovery (<[instanceId := t]> (seekRecovery (store w)))
                     (store w)) w
  end.
Proof.
  unfold handleSeekEnd, Math_round, bind, get_world. simpl.
  destruct (activeProgresses (store w) !! instanceId) as [item|] eqn:Hitem; simpl.
  - destruct (localSeekValue w) as [t|] eqn:Hlocal; simpl.
    + destruct (env (seek_instance instanceId t)) as [v|] eqn:Hseek; simpl.
      * rewrite lookup_alter_eq, Hitem. simpl.
        destruct (default false (wasPlayingBeforeSeek w !! instanceId)); simpl;
          [| by rewrite lookup_delete_eq].
        destruct (AudioProgress.is_paused item); simpl;
          [| by rewrite lookup_delete_eq].
        destruct (env (toggle_pause_instance instanceId)) as [b|]; simpl.
        -- by rewrite lookup_delete_eq.
        -- by rewrite lookup_delete_eq.
      * exists t. by repeat split.
    + rewrite Hitem. simpl.
      destruct (default false (wasPlayingBeforeSeek w !! instanceId)); simpl;
        [| by rewrite lookup_delete_eq].
      destruct (AudioProgress.is_paused item); simpl;
        [| by rewrite lookup_delete_eq].
      destruct (env (toggle_pause_instance instanceId)) as [b|]; simpl.
      * by rewrite lookup_delete_eq.
      * by rewrite lookup_delete_eq.
  - rewrite Hitem. simpl. rewrite andb_false_r. simpl. by rewrite lookup_delete_eq.
Qed.

(** ** Whole seek gestures *)

(** X10. A seek gesture on a paused instance sends the engine one command,
    the seek itself, and no pause or resume; if the engine accepts it the
    instance's entry afterwards is the entry from before the gesture with its
    position set to the slider value - still paused - and the drag is over. *)
Theorem X10_seek_while_paused (w : World) (instanceId v : Z) (item : AudioProgress.t)
    (env1 env2 : Command -> Response) :
  activeProgresses (store w) !! instanceId = Some item ->
  AudioProgress.is_paused item = true ->
  issued env1 (handleSeekStart instanceId w) = []
  /\ issued env2 (handleSeekEnd instanceId (drag_to instanceId v env1 w))
     = [seek_instance instanceId v]
  /\ (forall r, env2 (seek_instance instanceId v) = Resolved r ->
        let w' := seek_gesture instanceId v env1 env2 w in
        activeProgresses (store w')
        = <[instanceId := AudioProgress.set_position_ms v item]> (activeProgresses (store w))
        /\ seekingInstanceId (store w') = None
        /\ localSeekValue w' = None).
Proof.
  intros Hitem Hpaused.
  unfold seek_gesture, drag_to, handleSeekStart, bind, get_store. simpl.
  rewrite Hitem. simpl. rewrite Hpaused. simpl.
  split; [done|].
  unfold handleSeek. simpl. rewrite bool_decide_eq_true_2 by done.
  unfold handleSeekEnd, Math_round, bind, get_world. simpl.
  rewrite Hitem. simpl.
  rewrite lookup_insert_eq. simpl.
  destruct (env2 (seek_instance instanceId v)) as [r|] eqn:Hseek; simpl.
  - split; [done|]. intros r' _. split; [| done].
    apply map_eq. intros i. destruct (decide (i = instanceId)) as [->|Hi].
    + by rewrite lookup_alter_eq, lookup_insert_eq, Hitem.
    + by rewrite lookup_alter_ne, lookup_insert_ne.
  - split; [done|]. by intros r' [=].
Qed.

Lemma X10_witness :
  issued (engine_ok true)
    (handleSeekEnd 1 (drag_to 1 5000 (engine_ok true)
                        (set_store (set_activeProgresses {[ 1 := boom 1000 true 10000 ]} store0)
                           world0)))
  = [seek_instance 1 5000].
Proof.
  refine (proj1 (proj2 (X10_seek_while_paused
                          (set_store (set_activeProgresses {[ 1 := boom 1000 true 10000 ]}
                                        store0) world0)
                          1 5000 (boom 1000 true 10000) (engine_ok true) (engine_ok true)
                          eq_refl eq_refl))).
Defined.

(** X11. A seek gesture on a playing instance first asks the engine to pause
    it. When the pointer goes up the seek is sent, and it is followed by a
    resuming toggle exactly when the pause took effect: if the pausing toggle
    was rejected, or answered "not paused", no second toggle is sent, so the
    gesture never pauses an instance that the drag left playing. *)
Theorem X11_seek_while_playing (w : World) (instanceId v : Z) (item : AudioProgress.t)
    (env1 env2 : Command -> Response) (r : Value) :
  activeProgresses (store w) !! instanceId = Some item ->
  AudioProgress.is_paused item = false ->
  env2 (seek_instance instanceId v) = Resolved r ->
  issued env1 (handleSeekStart instanceId w) = [toggle_pause_instance instanceId]
  /\ issued env2 (handleSeekEnd instanceId (drag_to instanceId v env1 w))
     = (if match env1 (toggle_pause_instance instanceId) with
           | Resolved b => as_boolean b
           | Rejected => false
           end
        then [seek_instance instanceId v; toggle_pause_instance instanceId]
        else [seek_instance instanceId v]).
Proof.
  intros Hitem Hpaused Hseek.
  unfold drag_to, handleSeekStart, bind, get_store. simpl.
  rewrite Hitem. simpl. rewrite Hpaused. simpl.
  split.
  - by destruct (env1 (toggle_pause_instance instanceId)).
  - destruct (env1 (toggle_pause_instance instanceId)) as [b|]; simpl.
    + rewrite Hitem. simpl.
      unfold handleSeek. simpl. rewrite bool_decide_eq_true_2 by done.
      unfold handleSeekEnd, Math_round, bind, get_world. simpl.
      rewrite !lookup_insert_eq. simpl. rewrite Hseek. simpl.
      rewrite lookup_alter_eq, lookup_insert_eq. simpl.
      destruct (as_boolean b); simpl; [| done].
      by destruct (env2 (toggle_pause_instance instanceId)).
    + unfold handleSeek. simpl. rewrite bool_decide_eq_true_2 by done.
      unfold handleSeekEnd, Math_round, bind, get_world. simpl.
      rewrite Hitem, lookup_insert_eq. simpl. rewrite Hseek. simpl.
      rewrite lookup_alter_eq, Hitem. simpl. by rewrite Hpaused.
Qed.

Lemma X11_witness :
  issued (engine_ok true) (handleSeekStart 1 world0) = [toggle_pause_instance 1]
  /\ issued (engine_ok false) (handleSeekEnd 1 (drag_to 1 5000 (engine_ok true) world0))
     = [seek_instance 1 5000; toggle_pause_instance 1]
  /\ issued (engine_ok false) (handleSeekEnd 1 (drag_to 1 5000 engine_down world0))
     = [seek_instance 1 5000].
Proof.
  split; [| split].
  - exact (proj1 (X11_seek_while_playing world0 1 5000 (boom 1000 false 10000)
                    (engine_ok true) (engine_ok false) VUndefined eq_refl eq_refl eq_refl)).
  - exact (proj2 (X11_seek_while_playing world0 1 5000 (boom 1000 false 10000)
                    (engine_ok true) (engine_ok false) VUndefined eq_refl eq_refl eq_refl)).
  - exact (proj2 (X11_seek_while_playing world0 1 5000 (boom 1000 false 10000)
                    engine_down (engine_ok false) VUndefined eq_refl eq_refl eq_refl)).
Defined.

(** ** Pausing, stopping and playing *)

(** X12. [togglePauseInstance] always completes. If the engine rejects the
    toggle, or the instance is not in the table, the world is left as it was;
    otherwise the only change is the [is_paused] flag of that instance's
    entry, set to the engine's answer: position, duration and sync fields,
    every other entry and every button are untouched. So a second toggle
    whose answer is the flag the entry had at first brings the world back to
    exactly what it was. *)
Theorem X12_toggle_pause (w : World) (instanceId : Z) (env : Command -> Response) :
  run env (togglePauseInstance instanceId w)
  = Completed tt
      match env (toggle_pause_instance instanceId), activeProgresses (store w) !! instanceId with
      | Resolved isPaused, Some progress =>
          set_store
            (set_activeProgresses
               (<[instanceId := AudioProgress.set_is_paused (as_boolean isPaused) progress]>
                  (activeProgresses (store w))) (store w)) w
      | _, _ => w
      end
  /\ (forall env2 progress,
        activeProgresses (store w) !! instanceId = Some progress ->
        env2 (toggle_pause_instance instanceId)
        = Resolved (VBool (AudioProgress.is_paused progress)) ->
        final (run env2 (togglePauseInstance instanceId
                           (final (run env (togglePauseInstance instanceId w)))))
        = w).
Proof.
  assert (forall env0 w0,
            run env0 (togglePauseInstance instanceId w0)
            = Completed tt
                match env0 (toggle_pause_instance instanceId),
                      activeProgresses (store w0) !! instanceId with
                | Resolved isPaused, Some progress =>
                    set_store
                      (set_activeProgresses
                         (<[instanceId :=
                              AudioProgress.set_is_paused (as_boolean isPaused) progress]>
                            (activeProgresses (store w0))) (store w0)) w0
                | _, _ => w0
                end) as Hrun.
  { intros env0 w0.
    unfold togglePauseInstance, try_catch, bind, await, modify_store. simpl.
    destruct (env0 (toggle_pause_instance instanceId)) as [v|]; simpl; [| done].
    destruct (activeProgresses (store w0) !! instanceId); [done|]. by destruct w0. }
  split; [apply Hrun|].
  intros env2 progress Hp Henv2. rewrite (Hrun env w), Hp. cbn [final].
  assert (forall w1 p1,
            activeProgresses (store w1) !! instanceId = Some p1 ->
            AudioProgress.set_is_paused (AudioProgress.is_paused progress) p1 = progress ->
            final (run env2 (togglePauseInstance instanceId w1))
            = set_store
                (set_activeProgresses
                   (<[instanceId := progress]> (activeProgresses (store w1))) (store w1))
                w1) as Hback.
  { intros w1 p1 Hp1 Hflag. rewrite (Hrun env2 w1), Henv2, Hp1. simpl.
    by rewrite Hflag. }
  destruct (env (toggle_pause_instance instanceId)) as [v|].
  - erewrite Hback; [| simpl; apply lookup_insert_eq | by destruct progress].
    simpl. rewrite insert_insert_eq, insert_id by done.
    destruct w as [s l wp st]. by destruct s.
  - erewrite Hback; [| exact Hp | by destruct progress].
    rewrite insert_id by done. destruct w as [s l wp st]. by destruct s.
Qed.

Lemma X12_witness :
  final (run (engine_ok false)
           (togglePauseInstance 1 (final (run (engine_ok true) (togglePauseInstance 1 world0)))))
  = world0.
Proof.
  exact (proj2 (X12_toggle_pause world0 1 (engine_ok true)) (engine_ok false)
           (boom 1000 false 10000) eq_refl eq_refl).
Defined.

(** X13. [stopInstance] always completes. Once the engine has accepted the
    stop it does to the store exactly what the handler of ["audio-finished"]
    does for the same instance - in particular nothing at all if the instance
    is not in the table; if the engine rejects the stop the world is left as
    it was, the instance still in the table. [stopAll] likewise changes
    nothing when its command is rejected. *)
Theorem X13_stop_outcomes (w : World) (instanceId : Z) (env : Command -> Response) :
  run env (stopInstance instanceId w)
  = Completed tt
      match env (stop_instance instanceId) with
      | Resolved _ => set_store (listen_audio_finished instanceId (store w)) w
      | Rejected => w
      end
  /\ (env stop_all = Rejected -> run env (stopAll w) = Completed tt w).
Proof.
  split.
  - destruct (env (stop_instance instanceId)) as [v|] eqn:Henv.
    + by apply (stopInstance_resolved _ _ _ v).
    + unfold stopInstance, try_catch, bind, await, modify_store. simpl.
      by rewrite Henv.
  - intros Henv. unfold stopAll, try_catch, bind, await, modify_store. simpl.
    by rewrite Henv.
Qed.

Lemma X13_witness :
  run engine_down (stopInstance 1 world0) = Completed tt world0
  /\ run engine_down (stopAll world0) = Completed tt world0.
Proof.
  destruct (X13_stop_outcomes world0 1 engine_down) as [H1 H2].
  split; [exact H1 | by apply H2].
Defined.

Lemma update_found_other {A : Type} (f : A -> bool) (g : A -> A) (l : list A)
    (n : nat) (x : A) :
  l !! n = Some x -> f x = false -> update_found f g l !! n = Some x.
Proof.
  revert n. induction l as [|y l IH]; intros n; simpl; [done|].
  destruct n as [|n]; simpl.
  - intros [= ->] Hf. by rewrite Hf.
  - intros Hx Hf. destruct (f y); simpl; [done | by apply IH].
Qed.

Lemma update_found_length {A : Type} (f : A -> bool) (g : A -> A) (l : list A) :
  length (update_found f g l) = length l.
Proof.
  induction l as [|y l IH]; simpl; [done|].
  destruct (f y); simpl; [done | by rewrite IH].
Qed.

(** X14. [playSound] for an id that no button has, or for a button whose
    path is [null] or the empty string, does nothing: no command is sent and
    the world is unchanged. For a button that has a sound, once the engine
    has accepted the command, the first button with that id has one more
    active instance and is not paused, the buttons with another id are what
    they were, and the list is as long as before. *)
Theorem X14_play_sound (w : World) (buttonId : Z) (env : Command -> Response) :
  (match find (id_eq buttonId) (buttons (store w)) with
   | None => True
   | Some button => path_missing button = true
   end ->
   playSound buttonId w = Return tt w)
  /\ (forall button r,
        find (id_eq buttonId) (buttons (store w)) = Some button ->
        path_missing button = false ->
        env (play_sound (pretty buttonId) (default EmptyString (SoundButton.path button))
               (SoundButton.name button) (SoundButton.volume button)) = Resolved r ->
        let w' := final (run env (playSound buttonId w)) in
        find (id_eq buttonId) (buttons (store w'))
        = Some (SoundButton.set_isPaused false
                  (SoundButton.set_activeInstances
                     (SoundButton.activeInstances button + 1) button))
        /\ length (buttons (store w')) = length (buttons (store w))
        /\ forall n b, buttons (store w) !! n = Some b ->
                       SoundButton.id b <> buttonId ->
                       buttons (store w') !! n = Some b).
Proof.
  split.
  - unfold playSound, bind, get_store. simpl.
    destruct (find (id_eq buttonId) (buttons (store w))) as [button|]; [| done].
    by intros ->.
  - intros button r Hfind Hpath Henv. unfold playSound, bind, get_store. simpl.
    rewrite Hfind, Hpath. simpl. rewrite Henv. simpl. split; [| split].
    + apply (find_update_found (id_eq buttonId)
               (fun b => SoundButton.set_isPaused false
                           (SoundButton.set_activeInstances
                              (SoundButton.activeInstances b + 1) b))); [done|].
      simpl. apply (find_some _ _ Hfind).
    + apply update_found_length.
    + intros n b Hb Hid. apply update_found_other; [done|].
      unfold id_eq. by rewrite bool_decide_eq_false_2.
Qed.

Lemma X14_witness :
  playSound 4 world0 = Return tt world0
  /\ playSound 99 world0 = Return tt world0
  /\ List.map SoundButton.activeInstances
       (buttons (store (final (run (engine_ok false) (playSound 3 world0)))))
     = [2; 0].
Proof.
  destruct (X14_play_sound world0 4 engine_down) as [H4 _].
  destruct (X14_play_sound world0 99 engine_down) as [H99 _].
  split; [by apply H4|]. split; [by apply H99|].
  destruct (X14_play_sound world0 3 (engine_ok false)) as [_ H3].
  destruct (H3 (button3 1) VUndefined eq_refl eq_refl eq_refl) as (_ & _ & _).
  reflexivity.
Defined.

(** ** What gets persisted *)

Ltac resolve_all Hall :=
  repeat match goal with
         | |- context [match ?env ?c with Resolved _ => _ | Rejected => _ end] =>
             let v := fresh "v" in destruct (Hall c) as [v ->]; simpl
         end.

Lemma saveSettings_all_resolved (w : World) (env : Command -> Response) :
  all_resolved env ->
  run env (saveSettings w)
  = Completed tt (set_settings (saved_entries (store w) (settings w)) w).
Proof.
  intros Hall.
  unfold saveSettings, try_catch, store_set_entry, bind, await, get_store, modify_world, ret.
  simpl. resolve_all Hall. reflexivity.
Qed.

(** X15. [saveSettings] always completes and never changes the store. If
    the plugin cannot open [store.bin] nothing is written. If every call
    succeeds, the plugin afterwards holds, under the nine keys, the values
    the store has at that moment, and its other entries are untouched. *)
Theorem X15_save_settings (w : World) (env : Command -> Response) :
  (exists w', run env (saveSettings w) = Completed tt w' /\ store w' = store w)
  /\ (env (Store_load "store.bin") = Rejected -> run env (saveSettings w) = Completed tt w)
  /\ (all_resolved env ->
      run env (saveSettings w)
      = Completed tt (set_settings (saved_entries (store w) (settings w)) w)).
Proof.
  split; [| split].
  - destruct (never_raises_run _ env (saveSettings_never_raises w)) as ([] & w' & Hrun).
    exists w'. split; [done|].
    pose proof (ends_in_run _ _ env (saveSettings_store w)) as H.
    by rewrite Hrun in H.
  - intros Hload.
    unfold saveSettings, try_catch, store_set_entry, bind, await, get_store, modify_world, ret.
    simpl. by rewrite Hload.
  - apply saveSettings_all_resolved.
Qed.

Lemma engine_ok_all_resolved (paused : bool) : all_resolved (engine_ok paused).
Proof. intros c. destruct c; simpl; eauto. Qed.

Lemma X15_witness :
  run engine_down (saveSettings world0) = Completed tt world0
  /\ settings (final (run (engine_ok false) (saveSettings world0))) !! "currentDevice"
     = Some (SavedString "Default").
Proof.
  destruct (X15_save_settings world0 engine_down) as (_ & H1 & _).
  destruct (X15_save_settings world0 (engine_ok false)) as (_ & _ & H2).
  split; [by apply H1|].
  rewrite H2 by apply engine_ok_all_resolved. reflexivity.
Defined.

Lemma run_catch_completed {A : Type} (env : Command -> Response) (t : Task A)
    (h : World -> Task A) (a : A) (w : World) :
  run env t = Completed a w -> run env (task_catch t h) = Completed a w.
Proof.
  induction t as [a0 w0 | w0 | c w0 k IH]; simpl; [done | done | apply IH].
Qed.

Lemma saved_entries_lookup (s : Store) (entries : gmap string Saved) :
  saved_entries s entries !! "currentDevice" = Some (SavedString (currentDevice s))
  /\ saved_entries s entries !! "masterVolume" = Some (SavedNumber (masterVolume s))
  /\ saved_entries s entries !! "buttons" = Some (SavedButtons (buttonsToSave s)).
Proof.
  unfold saved_entries. repeat split.
  - by rewrite !lookup_insert_ne, lookup_insert_eq by done.
  - by rewrite !lookup_insert_ne, lookup_insert_eq by done.
  - by rewrite !lookup_insert_ne, lookup_insert_eq by done.
Qed.

(** X16. When the engine and the plugin accept everything, [setOutputDevice]
    leaves the new device name both in the store and in the plugin's
    ["currentDevice"] entry, and [setMasterVolume] leaves the new volume both
    in the store and in the ["masterVolume"] entry. When the engine rejects
    [update_master_volume], the store keeps the new volume all the same while
    the plugin's entries are what they were. *)
Theorem X16_persisted_device_and_volume (w : World) (deviceName : string) (volume : Q)
    (env : Command -> Response) :
  (all_resolved env ->
     let w' := final (run env (setOutputDevice deviceName w)) in
     currentDevice (store w') = deviceName
     /\ settings w' !! "currentDevice" = Some (SavedString deviceName))
  /\ (all_resolved env ->
      let w' := final (run env (setMasterVolume volume w)) in
      masterVolume (store w') = volume
      /\ settings w' !! "masterVolume" = Some (SavedNumber volume))
  /\ (env (update_master_volume volume) = Rejected ->
      let w' := final (run env (setMasterVolume volume w)) in
      masterVolume (store w') = volume /\ settings w' = settings w).
Proof.
  split; [| split].
  - intros Hall w'. subst w'.
    unfold setOutputDevice, try_catch, bind, await, modify_store. cbn -[saveSettings].
    destruct (Hall (set_audio_device deviceName)) as [v ->]. cbn -[saveSettings].
    rewrite (run_catch_completed _ _ _ _ _
               (saveSettings_all_resolved
                  (set_store (set_currentDevice deviceName (store w)) w) env Hall)).
    simpl. split; [done|]. apply saved_entries_lookup.
  - intros Hall w'. subst w'.
    unfold setMasterVolume, try_catch, bind, await, modify_store. cbn -[saveSettings].
    destruct (Hall (update_master_volume volume)) as [v ->]. cbn -[saveSettings].
    rewrite (run_catch_completed _ _ _ _ _
               (saveSettings_all_resolved
                  (set_store (set_masterVolume volume (store w)) w) env Hall)).
    simpl. split; [done|]. apply saved_entries_lookup.
  - intros Henv w'. subst w'.
    unfold setMasterVolume, try_catch, bind, await, modify_store. simpl.
    by rewrite Henv.
Qed.

Lemma X16_witness :
  settings (final (run (engine_ok false) (setOutputDevice "VoiceMeeter Input" world0)))
    !! "currentDevice" = Some (SavedString "VoiceMeeter Input")
  /\ settings (final (run (engine_ok false) (setMasterVolume (3 # 4) world0)))
       !! "masterVolume" = Some (SavedNumber (3 # 4))
  /\ settings (final (run engine_down (setMasterVolume (3 # 4) world0))) = settings world0.
Proof.
  destruct (X16_persisted_device_and_volume world0 "VoiceMeeter Input" (3 # 4)
              (engine_ok false)) as (H1 & H2 & _).
  destruct (X16_persisted_device_and_volume world0 "VoiceMeeter Input" (3 # 4)
              engine_down) as (_ & _ & H3).
  split; [| split].
  - apply H1, engine_ok_all_resolved.
  - apply H2, engine_ok_all_resolved.
  - by apply H3.
Defined.

(** ** Saving and reloading the buttons *)

Lemma find_by_index (f : SoundButton.t -> SavedButton) (l : list SoundButton.t)
    (k : Z) (n : nat) :
  (forall b, saved_id (f b) = SoundButton.id b) ->
  (forall (j : nat) (b : SoundButton.t), l !! j = Some b -> SoundButton.id b = k + Z.of_nat j) ->
  List.find (fun sb => bool_decide (saved_id sb = k + Z.of_nat n)) (List.map f l)
  = f <$> l !! n.
Proof.
  intros Hf. revert k n. induction l as [|b l IH]; intros k n Hids; simpl; [done|].
  rewrite Hf. pose proof (Hids 0%nat b eq_refl) as Hb. simpl in Hb.
  destruct n as [|n]; simpl.
  - rewrite bool_decide_eq_true_2; [done | lia].
  - rewrite bool_decide_eq_false_2 by lia.
    replace (k + Z.of_nat (S n)) with ((k + 1) + Z.of_nat n) by lia.
    apply IH. intros j b' Hj. rewrite (Hids (S j) b' Hj). lia.
Qed.

(** X17. Reloading what was saved gives the buttons back. If every button's
    id is its index and no button has an empty name, an empty colour or an
    empty path, then the loop of [loadSettings], fed the list that
    [saveSettings] writes, rebuilds exactly the buttons of the store with
    their playing state reset ([isPaused] false, [activeInstances] 0). With
    nothing saved it builds the default buttons of [init]; and whatever was
    saved, the ids of the rebuilt buttons are their indexes. *)
Theorem X17_buttons_round_trip (s : Store) (savedButtons : option (list SavedButton))
    (totalButtons : Z) :
  (ids_are_indexes (buttons s) ->
   Forall survives_reload (buttons s) ->
   loadSettings_buttons (Some (buttonsToSave s)) (Z.of_nat (length (buttons s)))
   = (fun b => SoundButton.set_isPaused false
                 (SoundButton.set_activeInstances 0 b)) <$> buttons s)
  /\ loadSettings_buttons None totalButtons = init_buttons totalButtons
  /\ ids_are_indexes (loadSettings_buttons savedButtons totalButtons)
  /\ length (loadSettings_buttons savedButtons totalButtons) = Z.to_nat totalButtons.
Proof.
  split; [| split; [| split]].
  - intros Hids Hok. unfold loadSettings_buttons, buttonsToSave.
    apply list_eq. intros n. rewrite !list_lookup_fmap.
    destruct (decide (n < length (buttons s))%nat) as [Hn|Hn].
    + rewrite lookup_seqZ_lt by lia. simpl.
      destruct (lookup_lt_is_Some_2 (buttons s) n Hn) as [b Hb].
      pose proof (find_by_index
                    (fun b => mkSavedButton (SoundButton.id b) (SoundButton.path b)
                                (SoundButton.name b) (SoundButton.volume b)
                                (SoundButton.color b))
                    (buttons s) 0 n (fun _ => eq_refl)) as Hfind.
      rewrite Hb. simpl. f_equal.
      unfold restored_button. simpl.
      rewrite Hfind by (intros j b' Hj; rewrite (Hids j b' Hj); lia).
      rewrite Hb. simpl.
      pose proof (Forall_lookup_1 _ _ _ _ Hok Hb) as (Hp & Hname & Hcolor).
      unfold string_or. rewrite !bool_decide_eq_false_2 by done.
      pose proof (Hids n b Hb) as Hid.
      destruct b as [i p nm v c ip ai]; simpl in *.
      unfold SoundButton.set_isPaused, SoundButton.set_activeInstances. simpl.
      f_equal; try lia.
      destruct p as [p|]; [| done]. rewrite bool_decide_eq_false_2; [done | congruence].
    + rewrite lookup_seqZ_ge by lia. simpl.
      by rewrite lookup_ge_None_2 by lia.
  - done.
  - intros n b. unfold loadSettings_buttons. rewrite list_lookup_fmap.
    destruct (seqZ 0 totalButtons !! n) as [i|] eqn:Hi; simpl; [| done].
    apply lookup_seqZ in Hi as [-> _]. intros [= <-]. simpl. lia.
  - unfold loadSettings_buttons. by rewrite length_fmap, length_seqZ.
Qed.

Lemma X17_witness :
  loadSettings_buttons (Some (buttonsToSave store_two)) 2
  = [SoundButton.mk 0 (Some "boom.wav") "Boom" (4 # 5) "bg-red-500" false 0;
     SoundButton.mk 1 None "Button 2" (1 # 2) "bg-secondary" false 0].
Proof.
  refine (proj1 (X17_buttons_round_trip store_two None 0) _ _).
  - intros [|[|n]] b; simpl; intros [= <-]; reflexivity.
  - repeat constructor; discriminate.
Defined.

(** ** Pages *)

(** X18. The paging actions never leave the range of existing pages: from a
    valid page, [setPage], [nextPage] and [prevPage] all give a valid page.
    [setPage] with a page outside the range changes nothing and preloads
    nothing, [nextPage] on the last page and [prevPage] on the first do
    nothing, and [prevPage] undoes a [nextPage] that moved. *)
Theorem X18_pages_stay_valid (s : Store) (pg : Paging) (page : Z) :
  page_valid s pg ->
  page_valid s (setPage page s pg).1
  /\ page_valid s (nextPage s pg).1
  /\ page_valid s (prevPage s pg).1
  /\ (~ (0 <= page < totalPages s) -> setPage page s pg = (pg, []))
  /\ (currentPage pg = totalPages s - 1 -> nextPage s pg = (pg, []))
  /\ (currentPage pg = 0 -> prevPage s pg = (pg, []))
  /\ (currentPage pg < totalPages s - 1 -> (prevPage s (nextPage s pg).1).1 = pg).
Proof.
  unfold page_valid, setPage, nextPage, prevPage. intros Hv.
  repeat split.
  - destruct (Z.leb_spec 0 page), (Z.ltb_spec page (totalPages s)); simpl; lia.
  - destruct (Z.leb_spec 0 page), (Z.ltb_spec page (totalPages s)); simpl; lia.
  - destruct (Z.ltb_spec (currentPage pg) (totalPages s - 1)); simpl; lia.
  - destruct (Z.ltb_spec (currentPage pg) (totalPages s - 1)); simpl; lia.
  - destruct (Z.ltb_spec 0 (currentPage pg)); simpl; lia.
  - destruct (Z.ltb_spec 0 (currentPage pg)); simpl; lia.
  - intros Hout.
    destruct (Z.leb_spec 0 page), (Z.ltb_spec page (totalPages s)); simpl; (done || lia).
  - intros Hlast. destruct (Z.ltb_spec (currentPage pg) (totalPages s - 1)); [lia | done].
  - intros Hfirst. destruct (Z.ltb_spec 0 (currentPage pg)); [lia | done].
  - intros Hlt. destruct (Z.ltb_spec (currentPage pg) (totalPages s - 1)); [| lia].
    simpl. destruct (Z.ltb_spec 0 (currentPage pg + 1)); [| lia]. simpl.
    destruct pg as [cp ipp]. unfold set_currentPage. simpl. f_equal. lia.
Qed.

Lemma X18_witness :
  (nextPage store0 (mkPaging 3 16)).1 = mkPaging 3 16
  /\ (prevPage store0 (nextPage store0 (mkPaging 1 16)).1).1 = mkPaging 1 16
  /\ setPage 4 store0 (mkPaging 1 16) = (mkPaging 1 16, []).
Proof.
  assert (page_valid store0 (mkPaging 3 16)) as H3 by (unfold page_valid; simpl; lia).
  assert (page_valid store0 (mkPaging 1 16)) as H1 by (unfold page_valid; simpl; lia).
  destruct (X18_pages_stay_valid store0 (mkPaging 3 16) 0 H3) as (_ & _ & _ & _ & Hn & _).
  destruct (X18_pages_stay_valid store0 (mkPaging 1 16) 4 H1)
    as (_ & _ & _ & Hs & _ & _ & Hp).
  split; [| split].
  - by rewrite Hn.
  - apply Hp. simpl. lia.
  - apply Hs. simpl. lia.
Defined.

Lemma slice_inside {A : Type} (start n : Z) (l : list A) :
  0 <= start -> 0 <= n -> start + n <= Z.of_nat (length l) ->
  slice start (start + n) l = take (Z.to_nat n) (drop (Z.to_nat start) l).
Proof.
  intros Hs Hn Hlen. unfold slice.
  destruct (Z.ltb_spec start 0); [lia|].
  destruct (Z.ltb_spec (start + n) 0); [lia|].
  rewrite !Z.min_l by lia. f_equal. lia.
Qed.

Lemma paginatedButtons_inside (s : Store) (pg : Paging) :
  grid_full s pg -> page_valid s pg ->
  paginatedButtons s pg
  = take (Z.to_nat (itemsPerPage pg))
         (drop (Z.to_nat (currentPage pg * itemsPerPage pg)) (buttons s)).
Proof.
  intros (Hipp & Htp & Hlen & _) [Hcp0 Hcp]. unfold paginatedButtons.
  apply slice_inside; [nia | lia | nia].
Qed.

(** X19. On a full grid, every existing page shows exactly [itemsPerPage]
    buttons: the buttons of the store from position
    [currentPage * itemsPerPage] on, whose ids are that position and the
    following ones. *)
Theorem X19_page_contents (s : Store) (pg : Paging) :
  grid_full s pg -> page_valid s pg ->
  length (paginatedButtons s pg) = Z.to_nat (itemsPerPage pg)
  /\ forall k : nat,
       (Z.of_nat k < itemsPerPage pg) ->
       exists b,
         paginatedButtons s pg !! k = Some b
         /\ buttons s !! (Z.to_nat (currentPage pg * itemsPerPage pg) + k)%nat = Some b
         /\ SoundButton.id b = currentPage pg * itemsPerPage pg + Z.of_nat k.
Proof.
  intros Hfull Hvalid. rewrite (paginatedButtons_inside s pg Hfull Hvalid).
  destruct Hfull as (Hipp & Htp & Hlen & Hids). destruct Hvalid as [Hcp0 Hcp].
  split.
  - rewrite length_take, length_drop. nia.
  - intros k Hk. rewrite lookup_take_lt by lia. rewrite lookup_drop.
    destruct (lookup_lt_is_Some_2 (buttons s)
                (Z.to_nat (currentPage pg * itemsPerPage pg) + k)) as [b Hb]; [nia|].
    exists b. split; [done|]. split; [done|].
    rewrite (Hids _ b Hb). nia.
Qed.

Lemma store_grid_full (cp : Z) : grid_full store_grid (mkPaging cp 2).
Proof.
  unfold grid_full. simpl. repeat split; try lia.
  intros [|[|[|[|n]]]] b; simpl; intros [= <-]; reflexivity.
Qed.

Lemma X19_witness :
  length (paginatedButtons store_grid (mkPaging 1 2)) = 2%nat
  /\ exists b,
       paginatedButtons store_grid (mkPaging 1 2) !! 1%nat = Some b
       /\ buttons store_grid !! 3%nat = Some b
       /\ SoundButton.id b = 3.
Proof.
  assert (page_valid store_grid (mkPaging 1 2)) as Hv by (unfold page_valid; simpl; lia).
  destruct (X19_page_contents store_grid (mkPaging 1 2) (store_grid_full 1) Hv) as [H1 H2].
  split; [exact H1|]. apply (H2 1%nat). simpl. lia.
Defined.

Lemma run_bind_completed {A B : Type} (env : Command -> Response) (t : Task A)
    (f : A -> World -> Task B) (a : A) (w : World) :
  run env t = Completed a w -> run env (task_bind t f) = run env (f a w).
Proof.
  induction t as [a0 w0 | w0 | c w0 k IH]; simpl; [| done | apply IH].
  by intros [= -> ->].
Qed.

(** [saveSettings] completes in a world that differs from the one it was
    started in by the plugin's entries at most. *)
Lemma saveSettings_completes (w : World) (env : Command -> Response) :
  exists entries, run env (saveSettings w) = Completed tt (set_settings entries w).
Proof.
  destruct (never_raises_run _ env (saveSettings_never_raises w)) as ([] & w' & Hrun).
  pose proof (ends_in_run _ _ env (throughout_ends_in _ _ (saveSettings_keeps_store w)))
    as H.
  rewrite Hrun in H. simpl in H. destruct H as (Hs & Hl & Hp).
  exists (settings w'). rewrite Hrun. f_equal.
  destruct w', w; simpl in *. by subst.
Qed.

Lemma ids_are_indexes_app (l : list SoundButton.t) (n : Z) :
  ids_are_indexes l ->
  ids_are_indexes
    (l ++ ((fun i => default_button (Z.of_nat (length l) + i)) <$> seqZ 0 n)).
Proof.
  intros Hl j b. destruct (decide (j < length l)%nat) as [Hj|Hj].
  - rewrite lookup_app_l by done. apply Hl.
  - rewrite lookup_app_r by lia. rewrite list_lookup_fmap.
    destruct (seqZ 0 n !! (j - length l)%nat) as [i|] eqn:Hi; simpl; [| done].
    apply lookup_seqZ in Hi as [-> _]. intros [= <-]. simpl. lia.
Qed.

(** X20. [addPage] on a full grid always completes, whatever happens to the
    save. It leaves one page more and makes it the current one; the grid is
    full again, the buttons that were there are untouched, and the page now
    shown consists of [itemsPerPage] default buttons, so that there is
    nothing to preload. The new page is named after its number. *)
Theorem X20_add_page (w : World) (pg : Paging) (env : Command -> Response) :
  grid_full (store w) pg ->
  exists w',
    let pg' := set_currentPage (totalPages (store w)) pg in
    let fresh := (fun i => default_button (Z.of_nat (length (buttons (store w))) + i))
                   <$> seqZ 0 (itemsPerPage pg) in
    run env (addPage pg w) = Completed pg' w'
    /\ buttons (store w') = buttons (store w) ++ fresh
    /\ totalPages (store w') = totalPages (store w) + 1
    /\ pageNames (store w')
       = pageNames (store w) ++ ["Page " +:+ pretty (totalPages (store w) + 1)]
    /\ grid_full (store w') pg'
    /\ page_valid (store w') pg'
    /\ paginatedButtons (store w') pg' = fresh
    /\ preloadCurrentPage (store w') pg' = [].
Proof.
  intros (Hipp & Htp & Hlen & Hids).
  unfold addPage, bind, get_store, modify_store. cbn -[saveSettings].
  match goal with
  | |- context [task_bind (saveSettings ?w1) _] =>
      destruct (saveSettings_completes w1 env) as [entries Hsave];
      exists (set_settings entries w1);
      rewrite (run_bind_completed _ _ _ _ _ Hsave)
  end.
  simpl.
  replace (totalPages (store w) + 1 - 1) with (totalPages (store w)) by lia.
  assert (length ((fun i => default_button (Z.of_nat (length (buttons (store w))) + i))
                    <$> seqZ 0 (itemsPerPage pg)) = Z.to_nat (itemsPerPage pg)) as Hfresh.
  { by rewrite length_fmap, length_seqZ. }
  assert (grid_full
            (set_totalPages (totalPages (store w) + 1)
               (set_pageNames
                  (pageNames (store w) ++ ["Page " +:+ pretty (totalPages (store w) + 1)])
                  (set_buttons
                     (buttons (store w)
                      ++ ((fun i => default_button (Z.of_nat (length (buttons (store w))) + i))
                            <$> seqZ 0 (itemsPerPage pg)))
                     (store w))))
            (set_currentPage (totalPages (store w)) pg)) as Hfull.
  { unfold grid_full. simpl. split; [done|]. split; [lia|]. split.
    - rewrite length_app, Hfresh. nia.
    - by apply ids_are_indexes_app. }
  assert (page_valid
            (set_totalPages (totalPages (store w) + 1)
               (set_pageNames
                  (pageNames (store w) ++ ["Page " +:+ pretty (totalPages (store w) + 1)])
                  (set_buttons
                     (buttons (store w)
                      ++ ((fun i => default_button (Z.of_nat (length (buttons (store w))) + i))
                            <$> seqZ 0 (itemsPerPage pg)))
                     (store w))))
            (set_currentPage (totalPages (store w)) pg)) as Hvalid.
  { unfold page_valid. simpl. lia. }
  assert (paginatedButtons
            (set_totalPages (totalPages (store w) + 1)
               (set_pageNames
                  (pageNames (store w) ++ ["Page " +:+ pretty (totalPages (store w) + 1)])
                  (set_buttons
                     (buttons (store w)
                      ++ ((fun i => default_button (Z.of_nat (length (buttons (store w))) + i))
                            <$> seqZ 0 (itemsPerPage pg)))
                     (store w))))
            (set_currentPage (totalPages (store w)) pg)
          = (fun i => default_button (Z.of_nat (length (buttons (store w))) + i))
              <$> seqZ 0 (itemsPerPage pg)) as Hpage.
  { rewrite (paginatedButtons_inside _ _ Hfull Hvalid). simpl.
    replace (Z.to_nat (totalPages (store w) * itemsPerPage pg))
      with (length (buttons (store w))) by nia.
    rewrite drop_app_length. apply take_ge. lia. }
  repeat (split; [done|]).
  unfold preloadCurrentPage. rewrite Hpage.
  generalize (seqZ 0 (itemsPerPage pg)). induction l as [|i l IH]; simpl; [done|].
  exact IH.
Qed.

Lemma X20_witness :
  exists w',
    run engine_down (addPage (mkPaging 0 2) (set_store store_grid world0))
    = Completed (mkPaging 2 2) w'
    /\ List.map SoundButton.id (buttons (store w')) = [0; 1; 2; 3; 4; 5]
    /\ pageNames (store w') = ["Page 1"; "Page 2"; "Page 3"].
Proof.
  destruct (X20_add_page (set_store store_grid world0) (mkPaging 0 2) engine_down
              (store_grid_full 0)) as (w' & Hrun & Hb & _ & Hn & _).
  exists w'. split; [exact Hrun|]. rewrite Hb, Hn. split; reflexivity.
Defined.

(** ** Editing a button *)

(** X21. [updateButton] for an id that no button has does nothing and saves
    nothing. For a known id it always completes, replaces the first button
    with that id by the merge of the button and the update, and leaves the
    other buttons and the rest of the store alone; if the plugin accepts
    every call, its ["buttons"] entry then holds the updated buttons. A change
    of volume from the grid keeps the button's id, path, name, colour,
    pause flag and instance counter. *)
Theorem X21_update_button (w : World) (id : Z) (updates : SoundButtonUpdates)
    (env : Command -> Response) :
  (find (id_eq id) (buttons (store w)) = None -> updateButton id updates w = Return tt w)
  /\ (forall current,
        find (id_eq id) (buttons (store w)) = Some current ->
        exists entries,
          let s' := set_buttons (update_found (id_eq id) (spread updates) (buttons (store w)))
                      (store w) in
          run env (updateButton id updates w)
          = Completed tt (set_settings entries (set_store s' w))
          /\ (all_resolved env ->
              entries !! "buttons" = Some (SavedButtons (buttonsToSave s')))
          /\ (forall n b, buttons (store w) !! n = Some b -> SoundButton.id b <> id ->
                          buttons s' !! n = Some b))
  /\ (forall current v0 vs,
        find (id_eq id) (buttons (store w)) = Some current ->
        find (id_eq id)
          (buttons (store (final (run env (handleVolumeChange id (v0 :: vs) w)))))
        = Some (SoundButton.mk (SoundButton.id current) (SoundButton.path current)
                  (SoundButton.name current) v0 (SoundButton.color current)
                  (SoundButton.isPaused current) (SoundButton.activeInstances current))).
Proof.
  assert (forall updates0 current,
            find (id_eq id) (buttons (store w)) = Some current ->
            exists entries,
              run env (updateButton id updates0 w)
              = Completed tt
                  (set_settings entries
                     (set_store
                        (set_buttons
                           (update_found (id_eq id) (spread updates0) (buttons (store w)))
                           (store w)) w))
              /\ (all_resolved env ->
                  entries !! "buttons"
                  = Some (SavedButtons
                            (buttonsToSave
                               (set_buttons
                                  (update_found (id_eq id) (spread updates0)
                                     (buttons (store w))) (store w)))))) as Hrun.
  { intros updates0 current Hfind.
    unfold updateButton, bind, get_store, modify_store. cbn -[saveSettings].
    rewrite Hfind. cbn -[saveSettings].
    match goal with
    | |- context [run env (saveSettings ?w1)] =>
        destruct (saveSettings_completes w1 env) as [entries Hsave];
        exists entries; split; [exact Hsave|]; intros Hall;
        pose proof (saveSettings_all_resolved w1 env Hall) as Hall'
    end.
    rewrite Hsave in Hall'. injection Hall' as ->.
    apply saved_entries_lookup. }
  split; [| split].
  - intros Hfind. unfold updateButton, bind, get_store. simpl. by rewrite Hfind.
  - intros current Hfind. destruct (Hrun updates current Hfind) as (entries & Hr & Hall).
    exists entries. split; [exact Hr|]. split; [exact Hall|].
    simpl. intros n b Hb Hid. apply update_found_other; [done|].
    unfold id_eq. by rewrite bool_decide_eq_false_2.
  - intros current v0 vs Hfind. unfold handleVolumeChange.
    destruct (Hrun (mkUpdates None None None (Some v0) None None None) current Hfind)
      as (entries & Hr & _).
    rewrite Hr. simpl.
    apply (find_update_found (id_eq id)
             (spread (mkUpdates None None None (Some v0) None None None))); [done|].
    unfold spread. simpl. apply (find_some _ _ Hfind).
Qed.

Lemma X21_witness :
  updateButton 99 (mkUpdates None None (Some "Bang") None None None None) world0
  = Return tt world0
  /\ find (id_eq 3)
       (buttons (store (final (run engine_down (handleVolumeChange 3 [1 # 4] world0)))))
     = Some (SoundButton.mk 3 (Some "boom.wav") "Boom" (1 # 4) "bg-secondary" false 1).
Proof.
  destruct (X21_update_button world0 99 (mkUpdates None None (Some "Bang") None None None None)
              engine_down) as (H1 & _).
  destruct (X21_update_button world0 3 (mkUpdates None None None None None None None)
              engine_down) as (_ & _ & H3).
  split; [by apply H1|].
  exact (H3 (button3 1) (1 # 4) [] eq_refl).
Defined.

(** X22. [updatePageName] with an index outside the list of page names
    changes nothing and saves nothing. With an index inside it always
    completes, replaces that name and no other, keeps the number of names,
    and, if the plugin accepts every call, leaves the new list in its
    ["pageNames"] entry. *)
Theorem X22_update_page_name (w : World) (index : Z) (name : string)
    (env : Command -> Response) :
  (~ (0 <= index < Z.of_nat (length (pageNames (store w)))) ->
     updatePageName index name w = Return tt w)
  /\ (0 <= index < Z.of_nat (length (pageNames (store w))) ->
      exists entries,
        let names := <[Z.to_nat index := name]> (pageNames (store w)) in
        run env (updatePageName index name w)
        = Completed tt (set_settings entries (set_store (set_pageNames names (store w)) w))
        /\ names !! Z.to_nat index = Some name
        /\ (forall n, n <> Z.to_nat index -> names !! n = pageNames (store w) !! n)
        /\ length names = length (pageNames (store w))
        /\ (all_resolved env -> entries !! "pageNames" = Some (SavedStrings names))).
Proof.
  split.
  - intros Hout. unfold updatePageName, bind, get_store. simpl.
    destruct (Z.leb_spec 0 index), (Z.ltb_spec index (Z.of_nat (length (pageNames (store w)))));
      simpl; (done || lia).
  - intros Hin. unfold updatePageName, bind, get_store, modify_store. cbn -[saveSettings].
    destruct (Z.leb_spec 0 index); [| lia].
    destruct (Z.ltb_spec index (Z.of_nat (length (pageNames (store w))))); [| lia].
    cbn -[saveSettings].
    match goal with
    | |- context [run env (saveSettings ?w1)] =>
        destruct (saveSettings_completes w1 env) as [entries Hsave];
        exists entries; split; [exact Hsave|];
        pose proof (fun Hall => saveSettings_all_resolved w1 env Hall) as Hall'
    end.
    split; [apply list_lookup_insert_eq; lia|].
    split; [intros n Hn; by apply list_lookup_insert_ne|].
    split; [apply length_insert|].
    intros Hall. specialize (Hall' Hall). rewrite Hsave in Hall'.
    injection Hall' as ->. unfold saved_entries.
    by rewrite !lookup_insert_ne, lookup_insert_eq by done.
Qed.

Lemma X22_witness :
  updatePageName 4 "Jingles" world0 = Return tt world0
  /\ updatePageName (-1) "Jingles" world0 = Return tt world0
  /\ exists entries,
       run (engine_ok false) (updatePageName 1 "Jingles" world0)
       = Completed tt
           (set_settings entries
              (set_store (set_pageNames ["Page 1"; "Jingles"; "Page 3"; "Page 4"] store0)
                 world0))
       /\ entries !! "pageNames"
          = Some (SavedStrings ["Page 1"; "Jingles"; "Page 3"; "Page 4"]).
Proof.
  destruct (X22_update_page_name world0 4 "Jingles" engine_down) as [H4 _].
  destruct (X22_update_page_name world0 (-1) "Jingles" engine_down) as [Hneg _].
  destruct (X22_update_page_name world0 1 "Jingles" (engine_ok false)) as [_ H1].
  split; [apply H4; simpl; lia|]. split; [apply Hneg; simpl; lia|].
  destruct H1 as (entries & Hrun & _ & _ & _ & Hsaved); [simpl; lia|].
  exists entries. split; [exact Hrun|]. apply Hsaved, engine_ok_all_resolved.
Defined.

(** ** A rejection that arrives late *)

Lemma find_position_lookup {A : Type} (f : A -> bool) (l : list A) (n : nat) :
  find_position f l = Some n -> exists x, l !! n = Some x /\ find f l = Some x.
Proof.
  unfold find. revert n. induction l as [|y l IH]; intros n; simpl; [done|].
  destruct (f y) eqn:Hy.
  - intros [= <-]. eauto.
  - destruct (find_position f l) as [m|]; simpl; [| done].
    intros [= <-]. destruct (IH m eq_refl) as (x & Hx & Hfind). eauto.
Qed.

Lemma update_found_alter {A : Type} (f : A -> bool) (g : A -> A) (l : list A) (n : nat) :
  find_position f l = Some n -> update_found f g l = alter g n l.
Proof.
  revert n. induction l as [|y l IH]; intros n; simpl; [done|].
  destruct (f y) eqn:Hy.
  - by intros [= <-].
  - destruct (find_position f l) as [m|]; simpl; [| done].
    intros [= <-]. simpl. by rewrite (IH m eq_refl).
Qed.

Lemma find_position_update_found {A : Type} (f : A -> bool) (g : A -> A) (l : list A) :
  (forall x, f x = true -> f (g x) = true) ->
  find_position f (update_found f g l) = find_position f l.
Proof.
  intros Hg. induction l as [|y l IH]; simpl; [done|].
  destruct (f y) eqn:Hy; simpl; [by rewrite (Hg y Hy) | by rewrite Hy, IH].
Qed.

(** X23. [playSound_settled] is what [playSound] does after its [await] when
    nothing happens in between. If instead [stopAll] runs and is accepted
    while [play_sound] is pending, and [play_sound] is then rejected, the
    button's [activeInstances] ends at -1: the decrement of the [catch] is
    applied to the counter that [stopAll] has already reset. *)
Theorem X23_late_rejection (w : World) (buttonId : Z) (n : nat) (button : SoundButton.t)
    (env : Command -> Response) (v : Value) :
  find_position (id_eq buttonId) (buttons (store w)) = Some n ->
  buttons (store w) !! n = Some button ->
  path_missing button = false ->
  env stop_all = Resolved v ->
  exists c w1 k,
    playSound buttonId w = Await c w1 k
    /\ (forall r, k r = Return tt (playSound_settled n r w1))
    /\ SoundButton.activeInstances
         <$> buttons (store (playSound_settled n Rejected (final (run env (stopAll w1)))))
             !! n
       = Some (-1).
Proof.
  intros Hn Hb Hpath Henv.
  destruct (find_position_lookup _ _ _ Hn) as (x & Hx & Hfind).
  rewrite Hb in Hx. injection Hx as <-.
  unfold playSound, bind, get_store, modify_store. simpl. rewrite Hfind, Hpath. simpl.
  assert (find_position (id_eq buttonId)
            (update_found (id_eq buttonId)
               (fun b => SoundButton.set_isPaused false
                           (SoundButton.set_activeInstances
                              (SoundButton.activeInstances b + 1) b))
               (buttons (store w))) = Some n) as Hn1.
  { by rewrite find_position_update_found. }
  eexists _, _, _. split; [reflexivity|]. split.
  - intros [r|]; simpl; [done|].
    by rewrite (update_found_alter _ _ _ _ Hn1).
  - unfold stopAll, try_catch, bind, await, modify_store. simpl.
    rewrite Henv. simpl.
    rewrite list_lookup_alter.
    change (List.map ?f ?l) with (f <$> l).
    rewrite list_lookup_fmap.
    rewrite (update_found_alter _ _ _ _ Hn), list_lookup_alter, Hb.
    rewrite !decide_True by done. done.
Qed.

Lemma X23_witness :
  SoundButton.activeInstances
    <$> buttons (store (playSound_settled 0 Rejected
                          (final (run (engine_ok false)
                                    (stopAll (final (run (engine_ok false)
                                                       (playSound 3 world0)))))))) !! 0%nat
  = Some (-1).
Proof.
  destruct (X23_late_rejection world0 3 0 (button3 1) (engine_ok false) VUndefined
              eq_refl eq_refl eq_refl eq_refl) as (c & w1 & k & Heq & Hk & H).
  injection Heq as <- <- <-. exact H.
Defined.
